(** * Blank-line preservation for the TypeScript transformer pipeline

    A shallow embedding of [packages/ts-transformers/src/preserve-blank-lines.ts]
    and the properties its specification states about it.

    JavaScript strings are sequences of UTF-16 code units; offsets reported by
    the TypeScript compiler index code units.  The two [Set<string>] fields of
    the transformer are finite sets of such strings.  The TypeScript compiler
    API used by the file ([getLeadingCommentRanges]) is a parameter of the
    development; nodes carry the offsets that [getFullStart], [getStart] and
    [getEnd] report. *)

From Stdlib Require Import ZArith NArith List Ascii String Decimal DecimalString DecimalZ Lia.
From stdpp Require Import base decidable countable gmap sets list.

Local Open Scope Z_scope.
Local Set Warnings "-clear-no-such-hyp".

(** ** JavaScript strings *)

Module JS.

(** A string is the list of its UTF-16 code units. *)
Abbreviation jsstring := (list N).

(** An ASCII literal as a JavaScript string. *)
Definition lit (s : string) : jsstring := map N_of_ascii (list_ascii_of_string s).

Definition LF : N := 10%N.
Definition CR : N := 13%N.
Definition COLON : N := 58%N.

(** [String.prototype.slice(start, end)]: negative indices count from the
    end, both are clamped to the length, and an empty range gives [""]. *)
Definition slice (s : jsstring) (start end_ : Z) : jsstring :=
  let len := Z.of_nat (length s) in
  let from := if start <? 0 then Z.max (len + start) 0 else Z.min start len in
  let to := if end_ <? 0 then Z.max (len + end_) 0 else Z.min end_ len in
  if from >=? to then [] else take (Z.to_nat (to - from)) (drop (Z.to_nat from) s).

Definition isHighSurrogate (c : N) : bool := ((0xD800 <=? c) && (c <=? 0xDBFF))%N.
Definition isLowSurrogate (c : N) : bool := ((0xDC00 <=? c) && (c <=? 0xDFFF))%N.

(** The string iterator behind [for (const char of str)]: it yields code
    points, so a high surrogate followed by a low surrogate comes out as one
    two-unit string, and every other code unit on its own. *)
Fixpoint stringIterator (s : jsstring) : list jsstring :=
  match s with
  | [] => []
  | c :: rest =>
      match rest with
      | d :: rest' =>
          if isHighSurrogate c && isLowSurrogate d
          then [c; d] :: stringIterator rest'
          else [c] :: stringIterator rest
      | [] => [[c]]
      end
  end.

(** [Number.prototype.toString] on an integer (offsets are far below the
    1e21 threshold where JavaScript switches to exponent notation). *)
Definition numberToString (z : Z) : jsstring := lit (NilEmpty.string_of_int (Z.to_int z)).

(** [!str]: the empty string is the only falsy string. *)
Definition falsy (s : jsstring) : bool := match s with [] => true | _ => false end.

(** [for (let i = 0; i < n; i++) body], for a body that leaves [i] and [n]
    alone: the body runs once for each integer in [0, n). *)
Definition forUpTo {S : Type} (n : Z) (body : S -> S) (s : S) : S :=
  Nat.iter (Z.to_nat n) body s.

End JS.

Import JS.

(** ** Regular expressions

    The fragment of the pattern language the module's one [RegExp] is
    written in: the class escape [\s], characters that stand for
    themselves, and the greedy quantifier [*].  Matching is on code units
    (no [u] flag), case-sensitive (no [i] flag). *)

Module RegExp.

Inductive Atom : Type :=
  | WhiteSpaceClass
  | Char (c : N).

(** An atom and whether [*] follows it. *)
Definition Term : Type := Atom * bool.

(** The pattern's syntax characters: [^ $ \ . * + ? ( ) [ ] { } |]. *)
Definition isSyntaxCharacter (c : N) : bool :=
  match c with
  | 94 | 36 | 92 | 46 | 42 | 43 | 63 | 40 | 41 | 91 | 93 | 123 | 125 | 124 => true
  | _ => false
  end%N.

(** What [\s] matches: the white space and line terminator code points. *)
Definition isWhiteSpace (c : N) : bool :=
  match c with
  | 9 | 10 | 11 | 12 | 13 | 32 | 160 | 5760 | 8232 | 8233 | 8239 | 8287 | 12288 | 65279 => true
  | _ => ((8192 <=? c) && (c <=? 8202))%N
  end%N.

Definition BACKSLASH : N := 92%N.
Definition STAR : N := 42%N.
Definition LOWER_S : N := 115%N.

(** [new RegExp(pattern)] for patterns of the fragment; [None] for every
    other pattern (among them those on which the constructor throws). *)
Fixpoint compile (pattern : jsstring) : option (list Term) :=
  match pattern with
  | [] => Some []
  | c :: rest =>
      if N.eqb c BACKSLASH then
        match rest with
        | e :: rest1 =>
            if N.eqb e LOWER_S then
              match rest1 with
              | q :: rest2 =>
                  if N.eqb q STAR
                  then option_map (cons (WhiteSpaceClass, true)) (compile rest2)
                  else option_map (cons (WhiteSpaceClass, false)) (compile rest1)
              | [] => Some [(WhiteSpaceClass, false)]
              end
            else None
        | [] => None
        end
      else if isSyntaxCharacter c then None
      else
        match rest with
        | q :: rest1 =>
            if N.eqb q STAR
            then option_map (cons (Char c, true)) (compile rest1)
            else option_map (cons (Char c, false)) (compile rest)
        | [] => Some [(Char c, false)]
        end
  end.

Definition atomMatches (a : Atom) (c : N) : bool :=
  match a with
  | WhiteSpaceClass => isWhiteSpace c
  | Char c' => N.eqb c c'
  end.

(** A match of the terms at the head of [s], as the backtracking matcher
    finds it: its length.  A starred atom takes as many code units as it
    can and gives them back one by one while the rest fails. *)
Fixpoint matchTerms (terms : list Term) (s : jsstring) : option nat :=
  match terms with
  | [] => Some 0%nat
  | (a, false) :: terms' =>
      match s with
      | c :: s' => if atomMatches a c then option_map S (matchTerms terms' s') else None
      | [] => None
      end
  | (a, true) :: terms' =>
      (fix star (s : jsstring) : option nat :=
         match s with
         | c :: s' =>
             if atomMatches a c then
               match star s' with
               | Some n => Some (S n)
               | None => matchTerms terms' s
               end
             else matchTerms terms' s
         | [] => matchTerms terms' s
         end) s
  end.

(** A match of a regular expression at index [i] of [s]. *)
Definition matchAt (re : option (list Term)) (s : jsstring) (i : nat) : option nat :=
  match re with
  | Some terms => matchTerms terms (drop i s)
  | None => None
  end.

End RegExp.

(** ** The module's constants and helpers *)

Definition BLANK_LINE_PLACEHOLDER_COMMENT : jsstring :=
  lit "__BLANK_LINE_PLACEHOLDER_G1JVXUEBNCL6YN5NFE13MD1PT3H9OIHB__".

(** [new RegExp(`\\s*//${BLANK_LINE_PLACEHOLDER_COMMENT}`, 'g')]: the
    template literal is the pattern [\s*//] followed by the placeholder. *)
Definition BLANK_LINE_PLACEHOLDER_COMMENT_REGEXP : option (list RegExp.Term) :=
  RegExp.compile (lit "\s*//" ++ BLANK_LINE_PLACEHOLDER_COMMENT).

(** The body of the [for (const char of str)] loop of [countBlankLines]. *)
Definition bump (newLines : Z) (char : jsstring) : Z :=
  if decide (char = [LF]) then newLines + 1 else newLines.

Definition countBlankLines (str : jsstring) : Z :=
  let newLines := fold_left bump (stringIterator str) 0 in
  Z.max 0 (newLines - 1).

(** Number of ['\n'] code units of a string. *)
Definition newlineCount (s : jsstring) : Z :=
  Z.of_nat (length (filter (fun c => c = LF) s)).

(** ** The TypeScript data the transformer reads and writes *)

(** The two comment kinds of [ts.SyntaxKind] a [CommentRange] can have. *)
Inductive CommentKind : Type :=
  | SingleLineCommentTrivia
  | MultiLineCommentTrivia.

(** [ts.CommentRange]; [hasTrailingNewLine] is an optional property. *)
Record CommentRange : Type := mkCommentRange {
  c_pos : Z;
  c_end : Z;
  c_kind : CommentKind;
  c_hasTrailingNewLine : option bool
}.

(** [ts.SynthesizedComment], as [ts.addSyntheticLeadingComment] stores it
    (its [pos] and [end] are always [-1] and are left out). *)
Record SynthesizedComment : Type := mkSynthesizedComment {
  s_kind : CommentKind;
  s_text : jsstring;
  s_hasTrailingNewLine : option bool
}.

(** A [ts.Node] object: its identity, whether [ts.isSourceFile] holds of it,
    the offsets [getFullStart()], [getStart()] and [getEnd()] report, and the
    synthetic leading comments of its emit node. *)
Record Node : Type := mkNode {
  nid : nat;
  isSourceFile : bool;
  getFullStart : Z;
  getStart : Z;
  getEnd : Z;
  leadingComments : list SynthesizedComment
}.

(** The syntax tree as [ts.visitEachChild] walks it. *)
#[warnings="-register-all"]
Inductive Ast : Type :=
  | AstNode (node : Node) (children : list Ast).

Record SourceFile : Type := mkSourceFile {
  getFullText : jsstring;
  ast : Ast
}.

(** The part of the compiler API that scans the text for comments. *)
Class TypeScript : Type := {
  getLeadingCommentRanges : jsstring -> Z -> option (list CommentRange)
}.

(** [ts.setTextRange(node, {pos, end})]. *)
Definition setTextRange (node : Node) (pos end_ : Z) : Node :=
  {| nid := nid node; isSourceFile := isSourceFile node;
     getFullStart := pos; getStart := getStart node; getEnd := end_;
     leadingComments := leadingComments node |}.

(** [ts.addSyntheticLeadingComment(node, kind, text, hasTrailingNewLine)]. *)
Definition addSyntheticLeadingComment (node : Node) (kind : CommentKind)
    (text : jsstring) (hasTrailingNewLine : option bool) : Node :=
  {| nid := nid node; isSourceFile := isSourceFile node;
     getFullStart := getFullStart node; getStart := getStart node; getEnd := getEnd node;
     leadingComments :=
       leadingComments node ++ [mkSynthesizedComment kind text hasTrailingNewLine] |}.

(** A trick for removing original source trivia from the AST. *)
Definition deleteTriviaRange (node : Node) : Node :=
  setTextRange node (getStart node) (getEnd node).

(** ** The transformer *)

(** An element of [newComments]: a comment range or the [BLANK_LINE] symbol. *)
Inductive Entry : Type :=
  | BLANK_LINE
  | Existing (comment : CommentRange).

(** We create one of these per file. *)
Record PreserveBlankLinesTransformer : Type := mkTransformer {
  _sourceFileText : jsstring;
  _firstChild : option nat;
  _handledTriviaRanges : gset jsstring;
  _deletedTriviaRanges : gset jsstring
}.

Definition newTransformer (sourceFileText : jsstring) (firstChild : option nat)
    : PreserveBlankLinesTransformer :=
  mkTransformer sourceFileText firstChild ∅ ∅.

Definition addHandled (key : jsstring) (this : PreserveBlankLinesTransformer) :=
  mkTransformer (_sourceFileText this) (_firstChild this)
                ({[key]} ∪ _handledTriviaRanges this) (_deletedTriviaRanges this).

Definition addDeleted (key : jsstring) (this : PreserveBlankLinesTransformer) :=
  mkTransformer (_sourceFileText this) (_firstChild this)
                (_handledTriviaRanges this) ({[key]} ∪ _deletedTriviaRanges this).

(** [node === this._firstChild], an identity test on objects. *)
Definition isFirstChild (this : PreserveBlankLinesTransformer) (node : Node) : bool :=
  bool_decide (_firstChild this = Some (nid node)).

(** The template literal [`${node.getFullStart()}:${node.getStart()}`]. *)
Definition triviaRangeKeyOf (fullStart start : Z) : jsstring :=
  numberToString fullStart ++ lit ":" ++ numberToString start.

Definition triviaRangeKey (node : Node) : jsstring :=
  triviaRangeKeyOf (getFullStart node) (getStart node).

(** The local variables of [addComments] that its two loops update. *)
Record Scan : Type := mkScan {
  newComments : list Entry;
  anyBlankLinesToAdd : bool;
  anyExistingCommentsToResynthesize : bool;
  previousRegionEnd : Z
}.

(** [newComments.push(BLANK_LINE); anyBlankLinesToAdd = true;] *)
Definition pushBlankLine (s : Scan) : Scan :=
  mkScan (newComments s ++ [BLANK_LINE]) true
         (anyExistingCommentsToResynthesize s) (previousRegionEnd s).

(** [newComments.push(comment); anyExistingCommentsToResynthesize = true;] *)
Definition pushComment (comment : CommentRange) (s : Scan) : Scan :=
  mkScan (newComments s ++ [Existing comment]) (anyBlankLinesToAdd s)
         true (previousRegionEnd s).

Definition setPreviousRegionEnd (e : Z) (s : Scan) : Scan :=
  mkScan (newComments s) (anyBlankLinesToAdd s) (anyExistingCommentsToResynthesize s) e.

(** [for (let i = 0; i < countBlankLines(str); i++) { push; flag }] *)
Definition pushBlankLines (str : jsstring) (s : Scan) : Scan :=
  forUpTo (countBlankLines str) pushBlankLine s.

(** The body of [for (const comment of existingComments)]. *)
Definition scanComment (this : PreserveBlankLinesTransformer) (node : Node)
    (s : Scan) (comment : CommentRange) : Scan :=
  let s :=
    if negb (isFirstChild this node) then
      let leadingWhitespace :=
        slice (_sourceFileText this) (previousRegionEnd s) (c_pos comment) in
      pushComment comment (pushBlankLines leadingWhitespace s)
    else s in
  setPreviousRegionEnd (c_end comment) s.

(** What the last loop of [addComments] hands to
    [ts.addSyntheticLeadingComment] for one entry of [newComments]. *)
Definition synthesizedComment (sourceFileText : jsstring) (comment : Entry)
    : SynthesizedComment :=
  match comment with
  | BLANK_LINE =>
      mkSynthesizedComment SingleLineCommentTrivia BLANK_LINE_PLACEHOLDER_COMMENT (Some true)
  | Existing comment =>
      let commentText :=
        slice sourceFileText
              (c_pos comment + 2)
              (match c_kind comment with
               | MultiLineCommentTrivia => c_end comment - 2
               | SingleLineCommentTrivia => c_end comment
               end) in
      mkSynthesizedComment (c_kind comment) commentText (c_hasTrailingNewLine comment)
  end.

Definition attach (sourceFileText : jsstring) (node : Node) (comment : Entry) : Node :=
  let sc := synthesizedComment sourceFileText comment in
  addSyntheticLeadingComment node (s_kind sc) (s_text sc) (s_hasTrailingNewLine sc).

(** [ts.visitEachChild(node, visitor, context)] on the children of a node,
    in order; the transformer is the state the visitor closes over. *)
Definition visitEachChild
    (visitor : PreserveBlankLinesTransformer -> Ast -> Ast * PreserveBlankLinesTransformer)
    : PreserveBlankLinesTransformer -> list Ast -> list Ast * PreserveBlankLinesTransformer :=
  fix each this children :=
    match children with
    | [] => ([], this)
    | c :: cs =>
        let '(c', this) := visitor this c in
        let '(cs', this) := each this cs in
        (c' :: cs', this)
    end.

Section Transformer.

Context {ts : TypeScript}.

(** The scanning half of [addComments]: the comment loop and the trivia
    after the last comment. *)
Definition scanTrivia (this : PreserveBlankLinesTransformer) (node : Node) : Scan :=
  let existingComments :=
    default [] (getLeadingCommentRanges (_sourceFileText this) (getFullStart node)) in
  let s :=
    fold_left (scanComment this node) existingComments
              (mkScan [] false false (getFullStart node)) in
  if previousRegionEnd s <? getStart node then
    let postCommentText :=
      slice (_sourceFileText this) (previousRegionEnd s) (getStart node) in
    pushBlankLines postCommentText s
  else s.

Definition addComments (this : PreserveBlankLinesTransformer) (node : Node)
    : Node * PreserveBlankLinesTransformer :=
  if isSourceFile node then (node, this)
  else
    let key := triviaRangeKey node in
    if decide (key ∈ _handledTriviaRanges this) then
      if decide (key ∈ _deletedTriviaRanges this)
      then (deleteTriviaRange node, this)
      else (node, this)
    else
      let this := addHandled key this in
      let s := scanTrivia this node in
      if negb (anyBlankLinesToAdd s) then (node, this)
      else
        let '(node, this) :=
          if anyExistingCommentsToResynthesize s
          then (deleteTriviaRange node, addDeleted key this)
          else (node, this) in
        (fold_left (attach (_sourceFileText this)) (newComments s) node, this).

(** [visit]: [addComments] on the node, then [ts.visitEachChild]. *)
Fixpoint visit (this : PreserveBlankLinesTransformer) (t : Ast)
    : Ast * PreserveBlankLinesTransformer :=
  match t with
  | AstNode node children =>
      let '(node', this) := addComments this node in
      let '(children', this) := visitEachChild visit this children in
      (AstNode node' children', this)
  end.

(** [file.getChildAt(0).getChildAt(0)]: the first statement of the file, or
    [undefined] when the file has none. *)
Definition firstChildOf (file : SourceFile) : option nat :=
  match ast file with
  | AstNode _ (AstNode node _ :: _) => Some (nid node)
  | AstNode _ [] => None
  end.

(** The transform of one file, together with the transformer it created
    ([None] on the early return, where none is created). *)
Definition transformFile (file : SourceFile)
    : SourceFile * option PreserveBlankLinesTransformer :=
  let sourceFileText := getFullText file in
  if falsy sourceFileText then (file, None)
  else
    let firstChild := firstChildOf file in
    let transformer := newTransformer sourceFileText firstChild in
    let '(root, transformer) := visit transformer (ast file) in
    (mkSourceFile (getFullText file) root, Some transformer).

Definition preserveBlankLinesTransformer (file : SourceFile) : SourceFile :=
  fst (transformFile file).

End Transformer.

(** ** The walk as a sequence of visits *)

(** The nodes of a tree in the order [visit] reaches them. *)
Fixpoint flatten (t : Ast) : list Node :=
  match t with
  | AstNode node children => node :: concat (map flatten children)
  end.

(** [addComments] on each node of a sequence, threading the transformer. *)
Fixpoint visitAll `{TypeScript} (this : PreserveBlankLinesTransformer) (nodes : list Node)
    : list Node * PreserveBlankLinesTransformer :=
  match nodes with
  | [] => ([], this)
  | node :: nodes =>
      let '(node', this) := addComments this node in
      let '(nodes', this) := visitAll this nodes in
      (node' :: nodes', this)
  end.

(** ** Vocabulary of the specification *)

(** The comments the scanner finds in front of a node. *)
Definition existingCommentsOf `{TypeScript} (text : jsstring) (node : Node)
    : list CommentRange :=
  default [] (getLeadingCommentRanges text (getFullStart node)).

(** The text of a node's trivia region [[fullStart, contentStart)]. *)
Definition leadingTrivia (text : jsstring) (node : Node) : jsstring :=
  slice text (getFullStart node) (getStart node).

(** The placeholder markers a gap with [k] line feeds stands for:
    [max(0, k - 1)] of them. *)
Definition markers (gapText : jsstring) : list Entry :=
  replicate (Z.to_nat (Z.max 0 (newlineCount gapText - 1))) BLANK_LINE.

(** Each comment preceded by the markers of the gap in front of it. *)
Fixpoint interleaved (text : jsstring) (previousEnd : Z) (comments : list CommentRange)
    : list Entry :=
  match comments with
  | [] => []
  | c :: cs =>
      markers (slice text previousEnd (c_pos c)) ++ Existing c :: interleaved text (c_end c) cs
  end.

(** Where the last gap starts: the end of the last comment, or the full
    start when there is no comment. *)
Definition lastRegionEnd (fullStart : Z) (comments : list CommentRange) : Z :=
  default fullStart (last (map c_end comments)).

(** The gap after the last comment, up to the node's content start. *)
Definition trailingGap (text : jsstring) (node : Node) (comments : list CommentRange)
    : jsstring :=
  let e := lastRegionEnd (getFullStart node) comments in
  if e <? getStart node then slice text e (getStart node) else [].

Definition isBlankLine (e : Entry) : bool :=
  match e with BLANK_LINE => true | Existing _ => false end.

Definition isExisting (e : Entry) : bool :=
  match e with BLANK_LINE => false | Existing _ => true end.

(** The two flags of a scan say what its [newComments] holds. *)
Definition flagsAgree (s : Scan) : Prop :=
  anyBlankLinesToAdd s = existsb isBlankLine (newComments s) /\
  anyExistingCommentsToResynthesize s = existsb isExisting (newComments s).

(** Every region recorded as deleted has comments in it. *)
Definition deletedHaveComments `{TypeScript} (this : PreserveBlankLinesTransformer) : Prop :=
  forall K, K ∈ _deletedTriviaRanges this ->
    exists m, K = triviaRangeKey m /\ existingCommentsOf (_sourceFileText this) m <> [].

(** The synthetic comment every marker is rendered as. *)
Definition placeholderComment : SynthesizedComment :=
  mkSynthesizedComment SingleLineCommentTrivia BLANK_LINE_PLACEHOLDER_COMMENT (Some true).

(** Removing the last [n] code units of a string. *)
Definition dropEnd (n : nat) (s : jsstring) : jsstring := take (length s - n) s.

(** The text of a comment with its delimiters taken off: two code units in
    front, and two at the end of a block comment. *)
Definition stripDelimiters (kind : CommentKind) (commentSource : jsstring) : jsstring :=
  match kind with
  | SingleLineCommentTrivia => drop 2 commentSource
  | MultiLineCommentTrivia => dropEnd 2 (drop 2 commentSource)
  end.

Definition isUpperAlnum (c : N) : bool :=
  ((48 <=? c) && (c <=? 57) || (65 <=? c) && (c <=? 90))%N.

(** Two nodes with the same trivia range. *)
Definition sameRange (a b : Node) : bool :=
  (getFullStart a =? getFullStart b) && (getStart a =? getStart b).

(** What the parser gives of a file's tree: the root is the one
    [SourceFile] node, and it has the offsets of the first statement: both
    start at the head of the text and [getStart] skips the same trivia. *)
Definition parsedFile (file : SourceFile) : bool :=
  match flatten (ast file) with
  | root :: nodes =>
      isSourceFile root
      && forallb (fun n => negb (isSourceFile n)) nodes
      && match nodes with
         | first :: _ => sameRange first root
         | [] => true
         end
  | [] => false
  end.

(** The terms that match a string code unit by code unit. *)
Definition literalTerms (l : jsstring) : list RegExp.Term :=
  map (fun c => (RegExp.Char c, false)) l.

(** What the transform leaves alone in a node: its identity, its kind, its
    content start and its end. *)
Definition frameOf (node : Node) : Node :=
  mkNode (nid node) (isSourceFile node) 0 (getStart node) (getEnd node) [].

Fixpoint frame (t : Ast) : Ast :=
  match t with
  | AstNode node children => AstNode (frameOf node) (map frame children)
  end.



(** The comments of a sequence, in order. *)
Definition commentsOf (seq : list Entry) : list CommentRange :=
  flat_map (fun e => match e with BLANK_LINE => [] | Existing c => [c] end) seq.

(** ** Sample files

    Each sample gives a text, the comment ranges the compiler's scanner
    reports for it (as a table from the scanned position), and nodes with
    the offsets of that text. *)

Module Examples.

(** ["a;\n\n\n// c\n\nlet x;"]: the statement [let x;] is a
    [VariableStatement] whose [VariableDeclarationList] has the same trivia
    region, with a comment in it. *)
Definition text1 : jsstring :=
  lit "a;" ++ [LF; LF; LF] ++ lit "// c" ++ [LF; LF] ++ lit "let x;".
Definition comment1 : CommentRange := mkCommentRange 5 9 SingleLineCommentTrivia (Some true).
Definition scanner1 : TypeScript :=
  {| getLeadingCommentRanges := fun _ pos => if pos =? 2 then Some [comment1] else None |}.
Definition root1 : Node := mkNode 0 true 0 0 17 [].
Definition stmtA : Node := mkNode 1 false 0 0 2 [].
Definition stmtLet : Node := mkNode 2 false 2 11 17 [].
Definition declList : Node := mkNode 3 false 2 11 16 [].
Definition file1 : SourceFile :=
  mkSourceFile text1 (AstNode root1 [AstNode stmtA []; AstNode stmtLet [AstNode declList []]]).
Definition transformer1 : PreserveBlankLinesTransformer := newTransformer text1 (Some 1%nat).

(** ["a;\n\n/* hello\nworld */\nb;"]: a block comment in front of [b;]. *)
Definition text2 : jsstring :=
  lit "a;" ++ [LF; LF] ++ lit "/* hello" ++ [LF] ++ lit "world */" ++ [LF] ++ lit "b;".
Definition comment2 : CommentRange := mkCommentRange 4 21 MultiLineCommentTrivia (Some true).
Definition scanner2 : TypeScript :=
  {| getLeadingCommentRanges := fun _ pos => if pos =? 2 then Some [comment2] else None |}.
Definition stmtB : Node := mkNode 2 false 2 22 24 [].
Definition transformer2 : PreserveBlankLinesTransformer := newTransformer text2 (Some 1%nat).

(** ["\n\n\n// c\nx;"]: the first statement of a file, with two blank lines
    and a comment in front of it. *)
Definition text3 : jsstring := [LF; LF; LF] ++ lit "// c" ++ [LF] ++ lit "x;".
Definition comment3 : CommentRange := mkCommentRange 3 7 SingleLineCommentTrivia (Some true).
Definition scanner3 : TypeScript :=
  {| getLeadingCommentRanges := fun _ pos => if pos =? 0 then Some [comment3] else None |}.
Definition first3 : Node := mkNode 1 false 0 8 10 [].
Definition transformer3 : PreserveBlankLinesTransformer := newTransformer text3 (Some 1%nat).

(** ["// a\n\n\n// b\nx;"]: the first statement of a file, with two
    comments two blank lines apart in front of it. *)
Definition text4 : jsstring :=
  lit "// a" ++ [LF; LF; LF] ++ lit "// b" ++ [LF] ++ lit "x;".
Definition comment4a : CommentRange := mkCommentRange 0 4 SingleLineCommentTrivia (Some true).
Definition comment4b : CommentRange := mkCommentRange 7 11 SingleLineCommentTrivia (Some true).
Definition scanner4 : TypeScript :=
  {| getLeadingCommentRanges :=
       fun _ pos => if pos =? 0 then Some [comment4a; comment4b] else None |}.
Definition first4 : Node := mkNode 1 false 0 12 14 [].
Definition transformer4 : PreserveBlankLinesTransformer := newTransformer text4 (Some 1%nat).

(** ["\n\n\nx;"]: the first statement of a file, behind three line feeds
    and no comment. *)
Definition text5 : jsstring := [LF; LF; LF] ++ lit "x;".
Definition scanner5 : TypeScript := {| getLeadingCommentRanges := fun _ _ => None |}.
Definition first5 : Node := mkNode 1 false 0 3 5 [].
Definition transformer5 : PreserveBlankLinesTransformer := newTransformer text5 (Some 1%nat).

(** ["a; b;"]: two statements on one line. *)
Definition text7 : jsstring := lit "a; b;".
Definition root7 : Node := mkNode 0 true 0 0 5 [].
Definition stmtA7 : Node := mkNode 1 false 0 0 2 [].
Definition stmtB7 : Node := mkNode 2 false 2 3 5 [].
Definition file7 : SourceFile :=
  mkSourceFile text7 (AstNode root7 [AstNode stmtA7 []; AstNode stmtB7 []]).

(** The whole file of the fifth text: the root has the range of its one
    statement. *)
Definition root5 : Node := mkNode 0 true 0 3 5 [].
Definition file5 : SourceFile := mkSourceFile text5 (AstNode root5 [AstNode first5 []]).

(** ["const abcd = <div>\n// a\n\n\n// b\n</div>;"]: a JSX element whose
    text child holds two lines that look like comments.  The text node's
    [getStart] skips the one line feed in front and stops there; the scanner,
    started at the node's full start, reports both lines as comment ranges. *)
Definition text8 : jsstring :=
  lit "const abcd = <div>" ++ [LF] ++ lit "// a" ++ [LF; LF; LF] ++ lit "// b" ++ [LF]
  ++ lit "</div>;".
Definition comment8a : CommentRange := mkCommentRange 19 23 SingleLineCommentTrivia (Some true).
Definition comment8b : CommentRange := mkCommentRange 26 30 SingleLineCommentTrivia (Some true).
Definition scanner8 : TypeScript :=
  {| getLeadingCommentRanges :=
       fun _ pos => if pos =? 18 then Some [comment8a; comment8b] else None |}.
Definition root8 : Node := mkNode 0 true 0 0 38 [].
Definition varStmt8 : Node := mkNode 1 false 0 0 38 [].
Definition declList8 : Node := mkNode 2 false 0 0 37 [].
Definition decl8 : Node := mkNode 3 false 5 6 37 [].
Definition name8 : Node := mkNode 4 false 5 6 10 [].
Definition jsxElement8 : Node := mkNode 5 false 12 13 37 [].
Definition opening8 : Node := mkNode 6 false 12 13 18 [].
Definition tagName8 : Node := mkNode 7 false 14 14 17 [].
Definition attributes8 : Node := mkNode 8 false 17 17 17 [].
Definition jsxText8 : Node := mkNode 9 false 18 19 31 [].
Definition closing8 : Node := mkNode 10 false 31 31 37 [].
Definition closeName8 : Node := mkNode 11 false 33 33 36 [].
Definition file8 : SourceFile :=
  mkSourceFile text8
    (AstNode root8
       [AstNode varStmt8
          [AstNode declList8
             [AstNode decl8
                [AstNode name8 [];
                 AstNode jsxElement8
                   [AstNode opening8 [AstNode tagName8 []; AstNode attributes8 []];
                    AstNode jsxText8 [];
                    AstNode closing8 [AstNode closeName8 []]]]]]]).

(** The empty file. *)
Definition root6 : Node := mkNode 0 true 0 0 0 [].
Definition file6 : SourceFile := mkSourceFile [] (AstNode root6 []).

End Examples.

(** * Properties *)

(** ** Strings and [countBlankLines] *)

Section Strings.

Implicit Types (s t : jsstring) (c : N).

Lemma surrogate_not_LF c : isHighSurrogate c = true -> c <> LF.
Proof.
  unfold isHighSurrogate, LF. intros H ->. vm_compute in H. discriminate.
Qed.

Lemma low_surrogate_not_LF c : isLowSurrogate c = true -> c <> LF.
Proof.
  unfold isLowSurrogate, LF. intros H ->. vm_compute in H. discriminate.
Qed.

Lemma bump_fold (l : list jsstring) (a : Z) :
  fold_left bump l a = a + fold_left bump l 0.
Proof.
  revert a. induction l as [|x l IH]; intros a; simpl; [lia|].
  rewrite IH, (IH (bump 0 x)). unfold bump. destruct (decide (x = [LF])); lia.
Qed.

Lemma newlineCount_cons c s :
  newlineCount (c :: s) = (if decide (c = LF) then 1 else 0) + newlineCount s.
Proof.
  unfold newlineCount. rewrite filter_cons.
  destruct (decide (c = LF)); simpl length; lia.
Qed.

Lemma newlineCount_nil : newlineCount [] = 0.
Proof. reflexivity. Qed.

Lemma newlineCount_app s t : newlineCount (s ++ t) = newlineCount s + newlineCount t.
Proof.
  unfold newlineCount. rewrite filter_app, length_app. lia.
Qed.

Lemma newlineCount_nonneg s : 0 <= newlineCount s.
Proof. unfold newlineCount. lia. Qed.

(** Iterating by code point sees exactly the line feeds of the string: a
    line feed is never half of a surrogate pair. *)
Lemma stringIterator_newlines_aux (n : nat) s :
  (length s <= n)%nat -> fold_left bump (stringIterator s) 0 = newlineCount s.
Proof.
  revert s. induction n as [|n IH]; intros s Hn.
  - destruct s; [reflexivity | simpl in Hn; lia].
  - destruct s as [|c [|d rest]]; [reflexivity | |].
    + simpl. rewrite newlineCount_cons, newlineCount_nil. unfold bump.
      destruct (decide ([c] = [LF])) as [E|E], (decide (c = LF)) as [E'|E'];
        try lia; congruence.
    + change (stringIterator (c :: d :: rest))
        with (if isHighSurrogate c && isLowSurrogate d
              then [c; d] :: stringIterator rest
              else [c] :: stringIterator (d :: rest)).
      destruct (isHighSurrogate c && isLowSurrogate d) eqn:Hsur.
      * apply andb_prop in Hsur as [Hc Hd].
        apply surrogate_not_LF in Hc. apply low_surrogate_not_LF in Hd.
        cbn [fold_left]. rewrite bump_fold, IH by (simpl in *; lia).
        rewrite !newlineCount_cons. unfold bump.
        destruct (decide ([c; d] = [LF])); [discriminate|].
        destruct (decide (c = LF)); [contradiction|].
        destruct (decide (d = LF)); [contradiction|]. lia.
      * cbn [fold_left]. rewrite bump_fold, IH by (simpl in *; lia).
        rewrite (newlineCount_cons c). unfold bump.
        destruct (decide ([c] = [LF])) as [E|E], (decide (c = LF)) as [E'|E'];
          try lia; congruence.
Qed.

Lemma countBlankLines_newlineCount s :
  countBlankLines s = Z.max 0 (newlineCount s - 1).
Proof.
  unfold countBlankLines. cbv zeta.
  now rewrite (stringIterator_newlines_aux (length s) s) by lia.
Qed.


Lemma newlineCount_filter_other (P : N -> Prop) `{!forall c, Decision (P c)} s :
  P LF -> newlineCount (filter P s) = newlineCount s.
Proof.
  intros HP. induction s as [|c s IH]; [reflexivity|].
  rewrite filter_cons. destruct (decide (P c)) as [Hc|Hc].
  - rewrite !newlineCount_cons, IH. reflexivity.
  - rewrite newlineCount_cons, IH.
    destruct (decide (c = LF)) as [->|]; [contradiction | lia].
Qed.

End Strings.

(** ** The scanning loops *)

Section Scanner.

Context {ts : TypeScript}.

Implicit Types (this : PreserveBlankLinesTransformer) (node : Node) (s : Scan)
  (cs : list CommentRange) (seq : list Entry).

Lemma iter_pushBlankLine (n : nat) s :
  Nat.iter n pushBlankLine s =
  mkScan (newComments s ++ replicate n BLANK_LINE)
         (anyBlankLinesToAdd s || negb (Nat.eqb n 0))
         (anyExistingCommentsToResynthesize s) (previousRegionEnd s).
Proof.
  induction n as [|n IH].
  - destruct s; simpl. now rewrite app_nil_r, orb_false_r.
  - rewrite Nat.iter_succ, IH. unfold pushBlankLine. cbn [newComments
      anyBlankLinesToAdd anyExistingCommentsToResynthesize previousRegionEnd].
    rewrite replicate_S_end, app_assoc. simpl. now rewrite orb_true_r.
Qed.

Lemma markers_countBlankLines (str : jsstring) :
  replicate (Z.to_nat (countBlankLines str)) BLANK_LINE = markers str.
Proof. unfold markers. now rewrite countBlankLines_newlineCount. Qed.

Lemma pushBlankLines_newComments str s :
  newComments (pushBlankLines str s) = newComments s ++ markers str.
Proof.
  unfold pushBlankLines, forUpTo. rewrite iter_pushBlankLine. simpl.
  now rewrite markers_countBlankLines.
Qed.

Lemma pushBlankLines_previousRegionEnd str s :
  previousRegionEnd (pushBlankLines str s) = previousRegionEnd s.
Proof. unfold pushBlankLines, forUpTo. now rewrite iter_pushBlankLine. Qed.

Lemma existsb_isBlankLine_replicate (n : nat) :
  existsb isBlankLine (replicate n BLANK_LINE) = negb (Nat.eqb n 0).
Proof. destruct n; reflexivity. Qed.

Lemma existsb_isExisting_replicate (n : nat) :
  existsb isExisting (replicate n BLANK_LINE) = false.
Proof. induction n; simpl; auto. Qed.

Lemma flagsAgree_pushBlankLines str s : flagsAgree s -> flagsAgree (pushBlankLines str s).
Proof.
  intros [Hb He]. unfold pushBlankLines, forUpTo. rewrite iter_pushBlankLine.
  split; simpl; rewrite existsb_app.
  - now rewrite existsb_isBlankLine_replicate, Hb.
  - now rewrite existsb_isExisting_replicate, orb_false_r.
Qed.

Lemma flagsAgree_pushComment c s : flagsAgree s -> flagsAgree (pushComment c s).
Proof.
  intros [Hb He]. split; simpl; rewrite existsb_app; simpl.
  - now rewrite orb_false_r.
  - now rewrite !orb_true_r.
Qed.

Lemma flagsAgree_scanComment this node s c :
  flagsAgree s -> flagsAgree (scanComment this node s c).
Proof.
  intros H. unfold scanComment. destruct (negb (isFirstChild this node)).
  - destruct (flagsAgree_pushComment c _
                (flagsAgree_pushBlankLines
                   (slice (_sourceFileText this) (previousRegionEnd s) (c_pos c)) s H))
      as [Hb He].
    split; [apply Hb | apply He].
  - destruct H as [Hb He]. split; [apply Hb | apply He].
Qed.

Lemma flagsAgree_fold this node cs s :
  flagsAgree s -> flagsAgree (fold_left (scanComment this node) cs s).
Proof.
  revert s. induction cs as [|c cs IH]; intros s H; simpl; [exact H|].
  apply IH, flagsAgree_scanComment, H.
Qed.

Lemma scanTrivia_flagsAgree this node : flagsAgree (scanTrivia this node).
Proof.
  unfold scanTrivia. cbv zeta.
  match goal with |- context [fold_left ?f ?l ?a] =>
    assert (H : flagsAgree (fold_left f l a))
      by (apply flagsAgree_fold; split; reflexivity);
    destruct (previousRegionEnd (fold_left f l a) <? getStart node)
  end.
  - now apply flagsAgree_pushBlankLines.
  - exact H.
Qed.

Lemma lastRegionEnd_cons (p : Z) c cs :
  lastRegionEnd p (c :: cs) = lastRegionEnd (c_end c) cs.
Proof.
  unfold lastRegionEnd. simpl map. rewrite last_cons.
  destruct (last (map c_end cs)); reflexivity.
Qed.

(** The comment loop on the first child only moves [previousRegionEnd]. *)
Lemma fold_scanComment_firstChild this node cs s :
  isFirstChild this node = true ->
  fold_left (scanComment this node) cs s =
  setPreviousRegionEnd (lastRegionEnd (previousRegionEnd s) cs) s.
Proof.
  intros Hfc. revert s. induction cs as [|c cs IH]; intros s.
  - destruct s; reflexivity.
  - simpl fold_left. rewrite IH, lastRegionEnd_cons.
    unfold scanComment. rewrite Hfc. reflexivity.
Qed.

(** On every other node it pushes each comment behind the markers of the
    gap in front of it. *)
Lemma fold_scanComment_other this node cs s :
  isFirstChild this node = false ->
  newComments (fold_left (scanComment this node) cs s) =
    newComments s ++ interleaved (_sourceFileText this) (previousRegionEnd s) cs /\
  previousRegionEnd (fold_left (scanComment this node) cs s) =
    lastRegionEnd (previousRegionEnd s) cs.
Proof.
  intros Hfc. revert s. induction cs as [|c cs IH]; intros s.
  - simpl. now rewrite app_nil_r.
  - simpl fold_left. destruct (IH (scanComment this node s c)) as [IHn IHp].
    rewrite IHn, IHp, lastRegionEnd_cons. unfold scanComment. rewrite Hfc.
    simpl. rewrite pushBlankLines_newComments. split; [|reflexivity].
    now rewrite <- !app_assoc.
Qed.

(** The sequence [scanTrivia] computes, gap by gap. *)
Lemma scanTrivia_newComments this node :
  newComments (scanTrivia this node) =
  (if isFirstChild this node then []
   else interleaved (_sourceFileText this) (getFullStart node)
                    (existingCommentsOf (_sourceFileText this) node))
  ++ markers (trailingGap (_sourceFileText this) node
                          (existingCommentsOf (_sourceFileText this) node)).
Proof.
  unfold scanTrivia, trailingGap, existingCommentsOf. cbv zeta.
  set (cs := default [] _).
  destruct (isFirstChild this node) eqn:Hfc.
  - rewrite fold_scanComment_firstChild by exact Hfc. simpl.
    destruct (_ <? _); [now rewrite pushBlankLines_newComments | reflexivity].
  - destruct (fold_scanComment_other this node cs
                (mkScan [] false false (getFullStart node)) Hfc) as [Hn Hp].
    simpl in Hn, Hp. rewrite Hp.
    destruct (_ <? _).
    + now rewrite pushBlankLines_newComments, Hn.
    + rewrite Hn. unfold markers. simpl. now rewrite app_nil_r.
Qed.

Lemma scanTrivia_addHandled key this node :
  scanTrivia (addHandled key this) node = scanTrivia this node.
Proof. reflexivity. Qed.

End Scanner.

(** ** Region keys *)

Section Keys.

Lemma lit_inj (a b : string) : lit a = lit b -> a = b.
Proof.
  unfold lit. revert b. induction a as [|x a IH]; intros [|y b] H;
    simpl in H; try discriminate; [reflexivity|].
  injection H as Hxy Hab. f_equal; [|now apply IH].
  rewrite <- (ascii_N_embedding x), <- (ascii_N_embedding y). now f_equal.
Qed.

Lemma numberToString_inj (a b : Z) : numberToString a = numberToString b -> a = b.
Proof.
  unfold numberToString. intros H%lit_inj.
  apply DecimalZ.to_int_inj.
  assert (E : Some (Z.to_int a) = Some (Z.to_int b))
    by (rewrite <- !NilEmpty.isi; now f_equal).
  now injection E.
Qed.

Lemma uint_digits_no_colon (d : Decimal.uint) :
  Forall (fun c => c <> COLON) (lit (NilEmpty.string_of_uint d)).
Proof.
  induction d; simpl; [constructor | constructor; [discriminate | exact IHd] ..].
Qed.

Lemma numberToString_no_colon (z : Z) :
  Forall (fun c => c <> COLON) (numberToString z).
Proof.
  unfold numberToString. destruct (Z.to_int z) as [d|d]; simpl.
  - apply uint_digits_no_colon.
  - constructor; [discriminate | apply uint_digits_no_colon].
Qed.

Lemma split_at_colon (s1 s2 t1 t2 : jsstring) :
  Forall (fun c => c <> COLON) s1 -> Forall (fun c => c <> COLON) s2 ->
  s1 ++ COLON :: t1 = s2 ++ COLON :: t2 -> s1 = s2 /\ t1 = t2.
Proof.
  intros H1. revert s2. induction H1 as [|x s1 Hx H1 IH]; intros s2 H2 E.
  - destruct H2 as [|y s2 Hy H2]; simpl in E.
    + injection E as ->. now split.
    + injection E as <- _. contradiction.
  - destruct H2 as [|y s2 Hy H2]; simpl in E.
    + injection E as -> _. contradiction.
    + injection E as -> E. destruct (IH s2 H2 E) as [-> ->]. now split.
Qed.

(** Two regions have the same key string only when their offsets agree. *)
Lemma triviaRangeKeyOf_inj (p s p' s' : Z) :
  triviaRangeKeyOf p s = triviaRangeKeyOf p' s' -> p = p' /\ s = s'.
Proof.
  unfold triviaRangeKeyOf. change (lit ":") with [COLON]. simpl app. intros E.
  apply split_at_colon in E as [E1 E2]; try apply numberToString_no_colon.
  split; now apply numberToString_inj.
Qed.

Lemma triviaRangeKey_eq (a b : Node) :
  triviaRangeKey a = triviaRangeKey b <->
  getFullStart a = getFullStart b /\ getStart a = getStart b.
Proof.
  unfold triviaRangeKey. split.
  - apply triviaRangeKeyOf_inj.
  - now intros [-> ->].
Qed.

End Keys.

(** ** One call of [addComments] *)

Section AddComments.

Context {ts : TypeScript}.

Implicit Types (this : PreserveBlankLinesTransformer) (node : Node) (seq : list Entry).

Lemma fold_attach (text : jsstring) seq node :
  fold_left (attach text) seq node =
  mkNode (nid node) (isSourceFile node) (getFullStart node) (getStart node) (getEnd node)
         (leadingComments node ++ map (synthesizedComment text) seq).
Proof.
  revert node. induction seq as [|e seq IH]; intros node.
  - destruct node; simpl. now rewrite app_nil_r.
  - simpl fold_left. rewrite IH. unfold attach, addSyntheticLeadingComment. simpl.
    rewrite <- app_assoc. simpl. now destruct (synthesizedComment text e).
Qed.

Lemma addComments_sourceFile this node :
  isSourceFile node = true -> addComments this node = (node, this).
Proof. intros H. unfold addComments. now rewrite H. Qed.

Lemma addComments_handled this node :
  isSourceFile node = false ->
  triviaRangeKey node ∈ _handledTriviaRanges this ->
  addComments this node =
  (if decide (triviaRangeKey node ∈ _deletedTriviaRanges this)
   then deleteTriviaRange node else node, this).
Proof.
  intros Hsf Hin. unfold addComments. rewrite Hsf. cbv zeta.
  destruct (decide (triviaRangeKey node ∈ _handledTriviaRanges this)); [|contradiction].
  now destruct (decide (triviaRangeKey node ∈ _deletedTriviaRanges this)).
Qed.

(** The first visit of a region, in terms of the sequence the scan computed. *)
Lemma addComments_fresh this node :
  isSourceFile node = false ->
  triviaRangeKey node ∉ _handledTriviaRanges this ->
  addComments this node =
  let key := triviaRangeKey node in
  let seq := newComments (scanTrivia this node) in
  if existsb isBlankLine seq then
    if existsb isExisting seq
    then (fold_left (attach (_sourceFileText this)) seq (deleteTriviaRange node),
          addDeleted key (addHandled key this))
    else (fold_left (attach (_sourceFileText this)) seq node, addHandled key this)
  else (node, addHandled key this).
Proof.
  intros Hsf Hnin. unfold addComments. rewrite Hsf. cbv zeta.
  destruct (decide (triviaRangeKey node ∈ _handledTriviaRanges this)); [contradiction|].
  rewrite scanTrivia_addHandled.
  destruct (scanTrivia_flagsAgree this node) as [Hb He]. rewrite Hb, He.
  destruct (existsb isBlankLine _); [|reflexivity]. simpl negb. cbv iota.
  now destruct (existsb isExisting _).
Qed.

End AddComments.

(** ** The walk over the tree *)

Section Walk.

Context {ts : TypeScript}.

Implicit Types (this : PreserveBlankLinesTransformer) (node : Node) (nodes : list Node)
  (K : jsstring).

Lemma Ast_forall_ind (P : Ast -> Prop) :
  (forall node children, Forall P children -> P (AstNode node children)) ->
  forall t, P t.
Proof.
  intros step. fix IH 1. intros [node children]. apply step.
  induction children as [|c cs IHcs]; constructor; [apply IH | exact IHcs].
Qed.

Lemma visitAll_app this (l1 l2 : list Node) :
  visitAll this (l1 ++ l2) =
  (fst (visitAll this l1) ++ fst (visitAll (snd (visitAll this l1)) l2),
   snd (visitAll (snd (visitAll this l1)) l2)).
Proof.
  revert this. induction l1 as [|n l1 IH]; intros this; simpl.
  - now destruct (visitAll this l2).
  - destruct (addComments this n) as [n' this1]. rewrite IH.
    destruct (visitAll this1 l1) as [l1' this2]. simpl.
    now destruct (visitAll this2 l2).
Qed.

Lemma visitAll_length this nodes : length (fst (visitAll this nodes)) = length nodes.
Proof.
  revert this. induction nodes as [|n l IH]; intros this; simpl; [reflexivity|].
  destruct (addComments this n) as [n' this1]. specialize (IH this1).
  destruct (visitAll this1 l). simpl in *. now rewrite IH.
Qed.

(** The tree walk visits the nodes in pre-order. *)
Lemma visit_visitAll (t : Ast) :
  forall this,
    flatten (fst (visit this t)) = fst (visitAll this (flatten t)) /\
    snd (visit this t) = snd (visitAll this (flatten t)).
Proof.
  induction t as [node children IH] using Ast_forall_ind. intros this.
  simpl. destruct (addComments this node) as [node' this1].
  assert (Hch : forall this,
             concat (map flatten (fst (visitEachChild visit this children))) =
               fst (visitAll this (concat (map flatten children))) /\
             snd (visitEachChild visit this children) =
               snd (visitAll this (concat (map flatten children)))).
  { clear this this1 node node'. induction IH as [|c cs Hc _ IHcs]; intros this.
    - now split.
    - simpl. destruct (Hc this) as [Hc1 Hc2].
      destruct (visit this c) as [c' this1]. simpl in Hc1, Hc2.
      destruct (IHcs this1) as [Hcs1 Hcs2].
      destruct (visitEachChild visit this1 cs) as [cs' this2]. simpl in Hcs1, Hcs2.
      rewrite visitAll_app. simpl. rewrite <- Hc2, <- Hc1, <- Hcs1, <- Hcs2. now split. }
  destruct (Hch this1) as [H1 H2].
  destruct (visitEachChild visit this1 children) as [children' this2].
  destruct (visitAll this1 (concat (map flatten children))) as [l' this3].
  simpl in *. now subst.
Qed.

(** *** What one call does to the transformer *)

Lemma addComments_sourceFileText this node :
  _sourceFileText (snd (addComments this node)) = _sourceFileText this.
Proof.
  unfold addComments. repeat (case_match; simpl; try reflexivity).
  all: repeat match goal with H : (_, _) = (_, _) |- _ => injection H as <- <- end;
    reflexivity.
Qed.

Lemma addComments_firstChild this node :
  _firstChild (snd (addComments this node)) = _firstChild this.
Proof.
  unfold addComments. repeat (case_match; simpl; try reflexivity).
  all: repeat match goal with H : (_, _) = (_, _) |- _ => injection H as <- <- end;
    reflexivity.
Qed.

Lemma addComments_state this node :
  (snd (addComments this node) = this /\
   (isSourceFile node = true \/ triviaRangeKey node ∈ _handledTriviaRanges this)) \/
  (isSourceFile node = false /\ (triviaRangeKey node ∉ _handledTriviaRanges this) /\
   (snd (addComments this node) = addHandled (triviaRangeKey node) this \/
    snd (addComments this node) =
      addDeleted (triviaRangeKey node) (addHandled (triviaRangeKey node) this) /\
    existsb isExisting (newComments (scanTrivia this node)) = true)).
Proof.
  destruct (isSourceFile node) eqn:Hsf.
  - left. rewrite addComments_sourceFile by exact Hsf. auto.
  - destruct (decide (triviaRangeKey node ∈ _handledTriviaRanges this)) as [Hin|Hnin].
    + left. rewrite addComments_handled by assumption. auto.
    + right. rewrite addComments_fresh by assumption. cbv zeta.
      split; [reflexivity|]. split; [exact Hnin|].
      destruct (existsb isBlankLine _); [|now left].
      destruct (existsb isExisting _) eqn:He; [right | left]; auto.
Qed.

Lemma addComments_handled_mono this node K :
  K ∈ _handledTriviaRanges this -> K ∈ _handledTriviaRanges (snd (addComments this node)).
Proof.
  intros HK. destruct (addComments_state this node) as [[E _]|(_ & _ & [E | [E _]])];
    rewrite E; simpl; set_solver.
Qed.

Lemma addComments_handled_self this node :
  isSourceFile node = false ->
  triviaRangeKey node ∈ _handledTriviaRanges (snd (addComments this node)).
Proof.
  intros Hsf.
  destruct (addComments_state this node) as [[E [?|?]]|(_ & _ & [E | [E _]])];
    rewrite E; simpl; try congruence; set_solver.
Qed.

Lemma addComments_handled_origin this node K :
  K ∈ _handledTriviaRanges (snd (addComments this node)) ->
  K ∈ _handledTriviaRanges this \/ (isSourceFile node = false /\ K = triviaRangeKey node).
Proof.
  destruct (addComments_state this node) as [[E _]|(Hsf & _ & [E | [E _]])];
    rewrite E; simpl; set_solver.
Qed.

(** Once a region is handled, whether it counts as deleted never changes. *)
Lemma addComments_deleted_frozen this node K :
  K ∈ _handledTriviaRanges this ->
  (K ∈ _deletedTriviaRanges (snd (addComments this node))) <->
  (K ∈ _deletedTriviaRanges this).
Proof.
  intros HK.
  destruct (addComments_state this node) as [[E _]|(_ & Hnin & [E | [E _]])];
    rewrite E; simpl; set_solver.
Qed.

Lemma addComments_deleted_subset this node :
  _deletedTriviaRanges this ⊆ _handledTriviaRanges this ->
  _deletedTriviaRanges (snd (addComments this node)) ⊆
  _handledTriviaRanges (snd (addComments this node)).
Proof.
  intros Hinv.
  destruct (addComments_state this node) as [[E _]|(_ & _ & [E | [E _]])];
    rewrite E; simpl; set_solver.
Qed.

(** A scan that pushed a comment had a comment to push. *)
Lemma scanTrivia_existing_comments this node :
  existsb isExisting (newComments (scanTrivia this node)) = true ->
  existingCommentsOf (_sourceFileText this) node <> [].
Proof.
  rewrite scanTrivia_newComments. intros H E. rewrite E in H.
  rewrite existsb_app in H. unfold markers in H.
  rewrite existsb_isExisting_replicate, orb_false_r in H.
  destruct (isFirstChild this node); discriminate.
Qed.

Lemma addComments_deletedHaveComments this node :
  deletedHaveComments this -> deletedHaveComments (snd (addComments this node)).
Proof.
  intros Hinv K. pose proof (addComments_sourceFileText this node) as Htxt.
  unfold deletedHaveComments in *. rewrite Htxt.
  destruct (addComments_state this node) as [[E _]|(_ & _ & [E | [E He]])];
    rewrite E; simpl; auto.
  intros [->%elem_of_singleton|HK]%elem_of_union; [|auto].
  exists node. split; [reflexivity|]. now apply scanTrivia_existing_comments.
Qed.

(** *** What the whole walk does to the transformer *)

Lemma visitAll_cons this node nodes :
  visitAll this (node :: nodes) =
  (fst (addComments this node) :: fst (visitAll (snd (addComments this node)) nodes),
   snd (visitAll (snd (addComments this node)) nodes)).
Proof.
  simpl. destruct (addComments this node) as [n' this1]. simpl.
  now destruct (visitAll this1 nodes).
Qed.

Lemma visitAll_sourceFileText this nodes :
  _sourceFileText (snd (visitAll this nodes)) = _sourceFileText this.
Proof.
  revert this. induction nodes as [|n l IH]; intros this; [reflexivity|].
  rewrite visitAll_cons. simpl. now rewrite IH, addComments_sourceFileText.
Qed.

Lemma visitAll_firstChild this nodes :
  _firstChild (snd (visitAll this nodes)) = _firstChild this.
Proof.
  revert this. induction nodes as [|n l IH]; intros this; [reflexivity|].
  rewrite visitAll_cons. simpl. now rewrite IH, addComments_firstChild.
Qed.

Lemma visitAll_handled_mono this nodes K :
  K ∈ _handledTriviaRanges this -> K ∈ _handledTriviaRanges (snd (visitAll this nodes)).
Proof.
  revert this. induction nodes as [|n l IH]; intros this HK; [exact HK|].
  rewrite visitAll_cons. simpl. now apply IH, addComments_handled_mono.
Qed.

Lemma visitAll_handled_origin this nodes K :
  K ∈ _handledTriviaRanges (snd (visitAll this nodes)) ->
  K ∈ _handledTriviaRanges this \/
  exists m, m ∈ nodes /\ isSourceFile m = false /\ K = triviaRangeKey m.
Proof.
  revert this. induction nodes as [|n l IH]; intros this HK; [now left|].
  rewrite visitAll_cons in HK. simpl in HK.
  apply IH in HK as [HK|(m & Hm & Hsf & ->)].
  - apply addComments_handled_origin in HK as [HK|[Hsf ->]]; [now left|].
    right. exists n. split; [apply list_elem_of_here | now split].
  - right. exists m. split; [now apply list_elem_of_further | now split].
Qed.

Lemma visitAll_deleted_frozen this nodes K :
  K ∈ _handledTriviaRanges this ->
  (K ∈ _deletedTriviaRanges (snd (visitAll this nodes))) <->
  (K ∈ _deletedTriviaRanges this).
Proof.
  revert this. induction nodes as [|n l IH]; intros this HK; [reflexivity|].
  rewrite visitAll_cons. simpl.
  rewrite IH by now apply addComments_handled_mono.
  now apply addComments_deleted_frozen.
Qed.

Lemma visitAll_deleted_subset this nodes :
  _deletedTriviaRanges this ⊆ _handledTriviaRanges this ->
  _deletedTriviaRanges (snd (visitAll this nodes)) ⊆
  _handledTriviaRanges (snd (visitAll this nodes)).
Proof.
  revert this. induction nodes as [|n l IH]; intros this H; [exact H|].
  rewrite visitAll_cons. simpl. now apply IH, addComments_deleted_subset.
Qed.

Lemma visitAll_deletedHaveComments this nodes :
  deletedHaveComments this -> deletedHaveComments (snd (visitAll this nodes)).
Proof.
  revert this. induction nodes as [|n l IH]; intros this H; [exact H|].
  rewrite visitAll_cons. simpl. now apply IH, addComments_deletedHaveComments.
Qed.

(** The node at position [i] is rewritten by the call made in the state the
    walk reached after the [i] nodes in front of it, and the walk goes on
    from there over the rest. *)
Lemma visitAll_lookup this nodes (i : nat) node :
  nodes !! i = Some node ->
  let before := snd (visitAll this (take i nodes)) in
  fst (visitAll this nodes) !! i = Some (fst (addComments before node)) /\
  snd (visitAll this nodes) =
    snd (visitAll (snd (addComments before node)) (drop (S i) nodes)).
Proof.
  intros Hi. cbv zeta.
  rewrite <- (take_drop_middle nodes i node Hi) at 1 3.
  rewrite visitAll_app, visitAll_cons. simpl. split; [|reflexivity].
  rewrite lookup_app_r; rewrite visitAll_length, length_take_le
    by (apply lookup_lt_Some in Hi; lia); [|lia].
  now rewrite Nat.sub_diag.
Qed.

(** *** First and later visits of a region *)

Lemma scanTrivia_sameFile (a b : PreserveBlankLinesTransformer) node :
  _sourceFileText a = _sourceFileText b -> _firstChild a = _firstChild b ->
  scanTrivia a node = scanTrivia b node.
Proof.
  destruct a, b. simpl. intros -> ->. reflexivity.
Qed.

(** What a first visit does to the node depends on the file only, not on
    the regions seen so far. *)
Lemma addComments_fresh_node (a b : PreserveBlankLinesTransformer) node :
  _sourceFileText a = _sourceFileText b -> _firstChild a = _firstChild b ->
  isSourceFile node = false ->
  triviaRangeKey node ∉ _handledTriviaRanges a ->
  triviaRangeKey node ∉ _handledTriviaRanges b ->
  fst (addComments a node) = fst (addComments b node).
Proof.
  intros Ht Hf Hsf Ha Hb. rewrite !addComments_fresh by assumption. cbv zeta.
  rewrite (scanTrivia_sameFile a b) by assumption. rewrite Ht.
  now repeat destruct (existsb _ _).
Qed.

Lemma addComments_fresh_deleted this node :
  isSourceFile node = false ->
  triviaRangeKey node ∉ _handledTriviaRanges this ->
  _deletedTriviaRanges this ⊆ _handledTriviaRanges this ->
  (triviaRangeKey node ∈ _deletedTriviaRanges (snd (addComments this node))) <->
  existsb isBlankLine (newComments (scanTrivia this node)) = true /\
  existsb isExisting (newComments (scanTrivia this node)) = true.
Proof.
  intros Hsf Hnin Hinv. rewrite addComments_fresh by assumption. cbv zeta.
  destruct (existsb isBlankLine _), (existsb isExisting _); simpl;
    split; try set_solver; intros []; discriminate.
Qed.

Lemma addComments_fresh_fullStart this node :
  isSourceFile node = false ->
  triviaRangeKey node ∉ _handledTriviaRanges this ->
  _deletedTriviaRanges this ⊆ _handledTriviaRanges this ->
  getFullStart (fst (addComments this node)) =
  if decide (triviaRangeKey node ∈ _deletedTriviaRanges (snd (addComments this node)))
  then getStart node else getFullStart node.
Proof.
  intros Hsf Hnin Hinv.
  pose proof (addComments_fresh_deleted this node Hsf Hnin Hinv) as Hdel.
  rewrite addComments_fresh in * by assumption. cbv zeta in *.
  destruct (existsb isBlankLine _), (existsb isExisting _); simpl in *;
    rewrite ?fold_attach; simpl;
    case_decide as Hd; try reflexivity;
    try (apply Hdel in Hd as []; discriminate);
    try (exfalso; apply Hd, Hdel; now split).
Qed.

Lemma deleteTriviaRange_fullStart node :
  getFullStart (deleteTriviaRange node) = getStart node.
Proof. reflexivity. Qed.

(** Every node of the walk ends with its trivia span cleared exactly when
    its region is in the final deleted set. *)
Lemma visitAll_fullStart this nodes (i : nat) node node' :
  _deletedTriviaRanges this ⊆ _handledTriviaRanges this ->
  nodes !! i = Some node -> fst (visitAll this nodes) !! i = Some node' ->
  isSourceFile node = false ->
  getFullStart node' =
  if decide (triviaRangeKey node ∈ _deletedTriviaRanges (snd (visitAll this nodes)))
  then getStart node else getFullStart node.
Proof.
  intros Hinv Hi Hi' Hsf.
  destruct (visitAll_lookup this nodes i node Hi) as [Hn Hfin].
  rewrite Hi' in Hn. injection Hn as ->. rewrite Hfin.
  set (before := snd (visitAll this (take i nodes))).
  assert (Hbinv : _deletedTriviaRanges before ⊆ _handledTriviaRanges before)
    by now apply visitAll_deleted_subset.
  pose proof (addComments_handled_self before node Hsf) as Hself.
  pose proof (visitAll_deleted_frozen _ (drop (S i) nodes) _ Hself) as Hfrozen.
  destruct (decide (triviaRangeKey node ∈ _handledTriviaRanges before)) as [Hin|Hnin].
  - rewrite addComments_handled in * by assumption. simpl in *.
    repeat case_decide; try reflexivity; tauto.
  - rewrite addComments_fresh_fullStart by assumption.
    repeat case_decide; try reflexivity; tauto.
Qed.

End Walk.

(** ** Regions shared by several nodes *)

Section SharedRegions.

Context {ts : TypeScript}.

Implicit Types (this : PreserveBlankLinesTransformer) (node : Node) (nodes : list Node).

Lemma visitAll_take_S this nodes (i : nat) node :
  nodes !! i = Some node ->
  snd (visitAll this (take (S i) nodes)) =
  snd (addComments (snd (visitAll this (take i nodes))) node).
Proof.
  intros Hi. rewrite (take_S_r _ _ _ Hi), visitAll_app, visitAll_cons. reflexivity.
Qed.

Lemma visitAll_from this nodes (j : nat) :
  snd (visitAll this nodes) =
  snd (visitAll (snd (visitAll this (take j nodes))) (drop j nodes)).
Proof.
  rewrite <- (take_drop j nodes) at 1. now rewrite visitAll_app.
Qed.

(** A region stays handled from the first node that has it on. *)
Lemma visitAll_handled_at this nodes (i j : nat) node :
  nodes !! i = Some node -> isSourceFile node = false -> (i < j)%nat ->
  triviaRangeKey node ∈ _handledTriviaRanges (snd (visitAll this (take j nodes))).
Proof.
  intros Hi Hsf Hij.
  rewrite (visitAll_from this (take j nodes) (S i)).
  apply visitAll_handled_mono.
  rewrite take_take, Nat.min_l by lia.
  rewrite (visitAll_take_S _ _ _ _ Hi). now apply addComments_handled_self.
Qed.

Lemma visitAll_frozen_from this nodes (j : nat) (K : jsstring) :
  K ∈ _handledTriviaRanges (snd (visitAll this (take j nodes))) ->
  (K ∈ _deletedTriviaRanges (snd (visitAll this nodes))) <->
  (K ∈ _deletedTriviaRanges (snd (visitAll this (take j nodes)))).
Proof.
  intros HK. rewrite (visitAll_from this nodes j). now apply visitAll_deleted_frozen.
Qed.

(** The first node of a region meets a transformer that has not handled it. *)
Lemma visitAll_first_fresh (text : jsstring) (fc : option nat) nodes (i : nat) node :
  nodes !! i = Some node ->
  (forall (h : nat) m, (h < i)%nat -> nodes !! h = Some m ->
     ~ (isSourceFile m = false /\ getFullStart m = getFullStart node /\
        getStart m = getStart node)) ->
  triviaRangeKey node ∉
    _handledTriviaRanges (snd (visitAll (newTransformer text fc) (take i nodes))).
Proof.
  intros Hi Hfirst Hin.
  apply visitAll_handled_origin in Hin as [Hin|(m & Hm & Hsf & Hkey)].
  - simpl in Hin. set_solver.
  - apply list_elem_of_lookup in Hm as [h Hh].
    apply lookup_take_Some in Hh as [Hh Hlt].
    apply triviaRangeKey_eq in Hkey as [Hp Hs].
    apply (Hfirst h m Hlt Hh). auto.
Qed.

(** A later node of a region only has its trivia deleted, and that exactly
    when the region is in the final deleted set. *)
Lemma visitAll_later this nodes (i j : nat) n m m' :
  nodes !! i = Some n -> isSourceFile n = false -> (i < j)%nat ->
  nodes !! j = Some m -> isSourceFile m = false ->
  triviaRangeKey m = triviaRangeKey n ->
  fst (visitAll this nodes) !! j = Some m' ->
  m' = if decide (triviaRangeKey n ∈ _deletedTriviaRanges (snd (visitAll this nodes)))
       then deleteTriviaRange m else m.
Proof.
  intros Hi Hsfn Hij Hj Hsfm Hkey Hj'.
  destruct (visitAll_lookup this nodes j m Hj) as [Hm _].
  rewrite Hj' in Hm. injection Hm as ->.
  pose proof (visitAll_handled_at this nodes i j n Hi Hsfn Hij) as Hh.
  pose proof (visitAll_frozen_from this nodes j _ Hh) as Hfrozen.
  rewrite addComments_handled by (rewrite ?Hkey; assumption).
  rewrite Hkey. simpl. repeat case_decide; try reflexivity; tauto.
Qed.

(** The first node of a region gets what the scan of that region yields,
    and decides for good whether the region counts as deleted. *)
Lemma visitAll_first (text : jsstring) (fc : option nat) nodes (i : nat) node node' :
  let this := newTransformer text fc in
  nodes !! i = Some node -> isSourceFile node = false ->
  (forall (h : nat) m, (h < i)%nat -> nodes !! h = Some m ->
     ~ (isSourceFile m = false /\ getFullStart m = getFullStart node /\
        getStart m = getStart node)) ->
  fst (visitAll this nodes) !! i = Some node' ->
  node' = fst (addComments this node) /\
  ((triviaRangeKey node ∈ _deletedTriviaRanges (snd (visitAll this nodes))) <->
   (triviaRangeKey node ∈ _deletedTriviaRanges (snd (addComments this node)))).
Proof.
  intros this Hi Hsf Hfirst Hi'.
  pose proof (visitAll_first_fresh text fc nodes i node Hi Hfirst) as Hfresh.
  fold this in Hfresh. set (before := snd (visitAll this (take i nodes))) in *.
  assert (Htxt : _sourceFileText before = _sourceFileText this)
    by apply visitAll_sourceFileText.
  assert (Hfc : _firstChild before = _firstChild this) by apply visitAll_firstChild.
  assert (Hempty : triviaRangeKey node ∉ _handledTriviaRanges this)
    by (simpl; set_solver).
  assert (Hinv0 : _deletedTriviaRanges this ⊆ _handledTriviaRanges this)
    by (simpl; set_solver).
  assert (Hinv : _deletedTriviaRanges before ⊆ _handledTriviaRanges before)
    by now apply visitAll_deleted_subset.
  destruct (visitAll_lookup this nodes i node Hi) as [Hn _].
  rewrite Hi' in Hn. injection Hn as ->. split.
  - now apply addComments_fresh_node.
  - rewrite (visitAll_frozen_from this nodes (S i))
      by (apply (visitAll_handled_at this nodes i (S i) node); auto).
    rewrite (visitAll_take_S _ _ _ _ Hi). fold before.
    rewrite !addComments_fresh_deleted by assumption.
    now rewrite (scanTrivia_sameFile before this).
Qed.

End SharedRegions.

(** ** Slices of the source text *)

Section Slices.

Implicit Types (text : jsstring) (a b : Z).

Lemma slice_in_range text a b :
  0 <= a -> a <= b -> b <= Z.of_nat (length text) ->
  slice text a b = take (Z.to_nat (b - a)) (drop (Z.to_nat a) text).
Proof.
  intros Ha Hab Hb. unfold slice.
  destruct (Z.ltb_spec a 0); [lia|]. destruct (Z.ltb_spec b 0); [lia|].
  rewrite !Z.min_l by lia.
  destruct (Z.geb_spec a b); [|reflexivity].
  replace (Z.to_nat (b - a)) with 0%nat by lia. reflexivity.
Qed.

Lemma slice_crossed text a b : 0 <= b -> b <= a -> slice text a b = [].
Proof.
  intros Hb Hba. unfold slice.
  destruct (Z.ltb_spec a 0); [lia|]. destruct (Z.ltb_spec b 0); [lia|].
  destruct (Z.geb_spec (Z.min a (Z.of_nat (length text)))
                       (Z.min b (Z.of_nat (length text)))); [reflexivity | lia].
Qed.

Lemma slice_drop_front text a b :
  0 <= a -> a + 2 <= b -> b <= Z.of_nat (length text) ->
  slice text (a + 2) b = drop 2 (slice text a b).
Proof.
  intros Ha Hab Hb. rewrite !slice_in_range by lia.
  replace (Z.to_nat (b - a)) with (2 + Z.to_nat (b - (a + 2)))%nat by lia.
  rewrite <- take_drop_commute, drop_drop. f_equal. f_equal. lia.
Qed.

Lemma slice_drop_both text a b :
  0 <= a -> a + 2 <= b -> b <= Z.of_nat (length text) ->
  slice text (a + 2) (b - 2) = dropEnd 2 (drop 2 (slice text a b)).
Proof.
  intros Ha Hab Hb. rewrite <- slice_drop_front by lia. unfold dropEnd.
  rewrite (slice_in_range text (a + 2) b) by lia.
  rewrite length_take_le by (rewrite length_drop; lia).
  rewrite take_take, Nat.min_l by lia.
  destruct (Z.le_gt_cases (a + 2) (b - 2)).
  - rewrite slice_in_range by lia. f_equal. lia.
  - rewrite slice_crossed by lia.
    replace (Z.to_nat (b - (a + 2)) - 2)%nat with 0%nat by lia. reflexivity.
Qed.

Lemma dropEnd_app (s t : jsstring) : dropEnd (length t) (s ++ t) = s.
Proof.
  unfold dropEnd. rewrite length_app.
  replace (length s + length t - length t)%nat with (length s) by lia.
  apply take_app_length.
Qed.

End Slices.

(** ** The whole transform *)

Lemma markers_at_most_one_newline (gap : jsstring) :
  newlineCount gap <= 1 -> markers gap = [].
Proof.
  intros H. unfold markers. now replace (Z.max 0 (newlineCount gap - 1)) with 0 by lia.
Qed.

Lemma scanTrivia_nothing {ts : TypeScript} (this : PreserveBlankLinesTransformer)
    (node : Node) :
  existingCommentsOf (_sourceFileText this) node = [] ->
  newlineCount (leadingTrivia (_sourceFileText this) node) <= 1 ->
  newComments (scanTrivia this node) = [].
Proof.
  intros Hcs Hnl. rewrite scanTrivia_newComments, Hcs.
  unfold trailingGap, lastRegionEnd. simpl.
  assert (Hm : markers (if getFullStart node <? getStart node
                        then slice (_sourceFileText this) (getFullStart node) (getStart node)
                        else []) = []).
  { destruct (_ <? _); apply markers_at_most_one_newline;
      [exact Hnl | rewrite newlineCount_nil; lia]. }
  rewrite Hm. now destruct (isFirstChild this node).
Qed.

Lemma addComments_untouched {ts : TypeScript} (this : PreserveBlankLinesTransformer)
    (node : Node) :
  deletedHaveComments this ->
  existingCommentsOf (_sourceFileText this) node = [] ->
  newlineCount (leadingTrivia (_sourceFileText this) node) <= 1 ->
  fst (addComments this node) = node.
Proof.
  intros Hinv Hcs Hnl.
  destruct (isSourceFile node) eqn:Hsf; [now rewrite addComments_sourceFile|].
  destruct (decide (triviaRangeKey node ∈ _handledTriviaRanges this)) as [Hin|Hnin].
  - rewrite addComments_handled by assumption. simpl.
    case_decide as Hdel; [|reflexivity].
    destruct (Hinv _ Hdel) as (m & Hkey & Hm).
    apply triviaRangeKey_eq in Hkey as [Hp _].
    unfold existingCommentsOf in *. rewrite <- Hp in Hm. contradiction.
  - rewrite addComments_fresh by assumption. cbv zeta.
    now rewrite scanTrivia_nothing.
Qed.

Lemma transformFile_walk {ts : TypeScript} (file : SourceFile) :
  falsy (getFullText file) = false ->
  let this := newTransformer (getFullText file) (firstChildOf file) in
  transformFile file =
  (mkSourceFile (getFullText file) (fst (visit this (ast file))),
   Some (snd (visit this (ast file)))).
Proof.
  intros H. unfold transformFile. rewrite H. cbv zeta.
  now destruct (visit _ (ast file)).
Qed.

Lemma transformFile_visitAll {ts : TypeScript} (file file' : SourceFile)
    (final : PreserveBlankLinesTransformer) :
  transformFile file = (file', Some final) ->
  let this := newTransformer (getFullText file) (firstChildOf file) in
  flatten (ast file') = fst (visitAll this (flatten (ast file))) /\
  final = snd (visitAll this (flatten (ast file))).
Proof.
  intros H. destruct (falsy (getFullText file)) eqn:Hf.
  - unfold transformFile in H. rewrite Hf in H. discriminate.
  - rewrite transformFile_walk in H by exact Hf. cbv zeta in *.
    injection H as <- <-. simpl. apply visit_visitAll.
Qed.

Lemma map_replicate {A B : Type} (f : A -> B) (n : nat) (x : A) :
  map f (replicate n x) = replicate n (f x).
Proof. induction n as [|n IH]; simpl; [reflexivity | now rewrite IH]. Qed.

(** The source-file root, which [addComments] skips, has the trivia region
    of the first statement.  That region is never recorded as deleted, so a
    root left as it was agrees with every node that shares its region. *)
Lemma first_statement_region_never_deleted {ts : TypeScript}
    (file file' : SourceFile) (final : PreserveBlankLinesTransformer)
    (root first : Node) (rest : list Node) :
  transformFile file = (file', Some final) ->
  flatten (ast file) = root :: first :: rest ->
  isSourceFile root = true -> isSourceFile first = false ->
  firstChildOf file = Some (nid first) ->
  triviaRangeKey first ∉ _deletedTriviaRanges final.
Proof.
  intros Htr Hflat Hroot Hfirst Hfc.
  destruct (transformFile_visitAll file file' final Htr) as [_ ->].
  rewrite Hflat, Hfc, !visitAll_cons. cbn [snd].
  rewrite (addComments_sourceFile _ root Hroot). cbn [snd].
  set (this := newTransformer (getFullText file) (Some (nid first))).
  assert (Hfresh : triviaRangeKey first ∉ _handledTriviaRanges this)
    by (simpl; set_solver).
  assert (Hinv : _deletedTriviaRanges this ⊆ _handledTriviaRanges this)
    by (simpl; set_solver).
  rewrite visitAll_deleted_frozen by (now apply addComments_handled_self).
  rewrite addComments_fresh_deleted by assumption. intros [_ He].
  assert (Hfcb : isFirstChild this first = true)
    by (unfold isFirstChild; simpl; now apply bool_decide_eq_true).
  rewrite scanTrivia_newComments, Hfcb in He. simpl in He. unfold markers in He.
  rewrite existsb_isExisting_replicate in He. discriminate.
Qed.

Lemma firstChildOf_flatten (file : SourceFile) (root first : Node) (rest : list Node) :
  flatten (ast file) = root :: first :: rest -> firstChildOf file = Some (nid first).
Proof.
  destruct file as [text [r children]]. unfold firstChildOf. simpl.
  destruct children as [|[f cs] others]; simpl; [discriminate|].
  now intros [= _ -> _].
Qed.

Lemma parsedFile_inv (file : SourceFile) :
  parsedFile file = true ->
  exists root nodes,
    flatten (ast file) = root :: nodes /\
    isSourceFile root = true /\
    (forall n, n ∈ nodes -> isSourceFile n = false) /\
    match nodes with
    | first :: _ =>
        getFullStart first = getFullStart root /\ getStart first = getStart root
    | [] => True
    end.
Proof.
  unfold parsedFile. destruct (flatten (ast file)) as [|root nodes]; [discriminate|].
  intros H. apply andb_prop in H as [H Hfirst]. apply andb_prop in H as [Hroot Hall].
  exists root, nodes. split; [reflexivity|]. split; [exact Hroot|]. split.
  - intros n Hn. rewrite forallb_forall in Hall.
    apply list_elem_of_In, Hall in Hn. now destruct (isSourceFile n).
  - destruct nodes as [|first rest]; [exact I|].
    unfold sameRange in Hfirst. apply andb_prop in Hfirst as [Hp Hs].
    apply Z.eqb_eq in Hp, Hs. now split.
Qed.

(** The range of the source-file root is never recorded as deleted. *)
Lemma root_range_never_deleted {ts : TypeScript} (file file' : SourceFile)
    (final : PreserveBlankLinesTransformer) (root : Node) (nodes : list Node) :
  transformFile file = (file', Some final) ->
  parsedFile file = true ->
  flatten (ast file) = root :: nodes ->
  triviaRangeKey root ∉ _deletedTriviaRanges final.
Proof.
  intros Htr Hpf Hflat.
  destruct (parsedFile_inv file Hpf) as (root' & nodes' & Hflat' & Hroot & Hnodes & Hfirst).
  rewrite Hflat in Hflat'. injection Hflat' as <- <-.
  destruct nodes as [|first rest].
  - destruct (transformFile_visitAll file file' final Htr) as [_ ->].
    rewrite Hflat, visitAll_cons. simpl snd.
    rewrite (addComments_sourceFile _ root Hroot). simpl. set_solver.
  - destruct Hfirst as [Hp Hs].
    assert (Hkey : triviaRangeKey root = triviaRangeKey first)
      by (apply triviaRangeKey_eq; auto).
    rewrite Hkey.
    apply (first_statement_region_never_deleted file file' final root first rest);
      auto.
    + apply Hnodes, list_elem_of_here.
    + now apply (firstChildOf_flatten file root first rest).
Qed.

(** A source-file node comes out of the walk as it went in. *)
Lemma visitAll_sourceFile_untouched {ts : TypeScript}
    (this : PreserveBlankLinesTransformer) (nodes : list Node) (i : nat) (n n' : Node) :
  nodes !! i = Some n -> fst (visitAll this nodes) !! i = Some n' ->
  isSourceFile n = true -> n' = n.
Proof.
  intros Hi Hi' Hsf. destruct (visitAll_lookup this nodes i n Hi) as [Hn _].
  rewrite Hi' in Hn. injection Hn as ->. now rewrite addComments_sourceFile.
Qed.

(** * The claims of the specification *)

(** C1, as the code has it.  The sequence a scan computes is, gap by gap:
    for every comment the markers of the gap in front of it, [max(0, k - 1)]
    for a gap of [k] line feeds, in one run, then the comment; and at the end
    the markers of the gap between the last comment and the content start.
    The first child of the root is the exception: the gaps in front of its
    comments give nothing and only its last gap is counted.  The node gets
    the sequence attached whenever it holds a marker. *)
Theorem C1_markers_gap_by_gap {ts : TypeScript}
    (this : PreserveBlankLinesTransformer) (node : Node) :
  isSourceFile node = false ->
  triviaRangeKey node ∉ _handledTriviaRanges this ->
  let text := _sourceFileText this in
  let comments := existingCommentsOf text node in
  let seq :=
    (if isFirstChild this node then []
     else interleaved text (getFullStart node) comments)
    ++ markers (trailingGap text node comments) in
  newComments (scanTrivia this node) = seq /\
  leadingComments (fst (addComments this node)) =
    leadingComments node ++
    (if existsb isBlankLine seq then map (synthesizedComment text) seq else []).
Proof.
  intros Hsf Hfresh text comments seq.
  assert (Hseq : newComments (scanTrivia this node) = seq)
    by apply scanTrivia_newComments.
  split; [exact Hseq|].
  rewrite addComments_fresh by assumption. cbv zeta. rewrite Hseq.
  destruct (existsb isBlankLine seq).
  - destruct (existsb isExisting seq); simpl; now rewrite fold_attach.
  - simpl. now rewrite app_nil_r.
Qed.

(** On [let x;] of the first sample: three line feeds in front of the
    comment give two markers, two behind it give one. *)
Lemma C1_gap_by_gap_witness :
  let this := Examples.transformer1 in
  let node := Examples.stmtLet in
  isSourceFile node = false /\
  (triviaRangeKey node ∉ _handledTriviaRanges this) /\
  newComments (@scanTrivia Examples.scanner1 this node) =
    [BLANK_LINE; BLANK_LINE; Existing Examples.comment1; BLANK_LINE] /\
  leadingComments (fst (@addComments Examples.scanner1 this node)) =
    [placeholderComment; placeholderComment;
     mkSynthesizedComment SingleLineCommentTrivia (lit " c") (Some true);
     placeholderComment].
Proof.
  intros this node.
  assert (Hsf : isSourceFile node = false) by reflexivity.
  assert (Hfresh : triviaRangeKey node ∉ _handledTriviaRanges this)
    by apply not_elem_of_empty.
  destruct (@C1_markers_gap_by_gap Examples.scanner1 this node Hsf Hfresh) as [Hseq Hatt].
  split; [exact Hsf|]. split; [exact Hfresh|].
  split; (etransitivity; [first [exact Hseq | exact Hatt] | reflexivity]).
Defined.

(** C1 as stated fails on the first child of the root: the gap in front of
    its comment holds three line feeds, which stand for two markers, and the
    scan produces none. *)
Lemma C1_first_child_gap_counterexample :
  let this := Examples.transformer3 in
  let node := Examples.first3 in
  let gap := slice Examples.text3 (getFullStart node) (c_pos Examples.comment3) in
  let produced :=
    length (filter (fun e => isBlankLine e = true)
                   (newComments (@scanTrivia Examples.scanner3 this node))) in
  isSourceFile node = false /\
  isFirstChild this node = true /\
  @existingCommentsOf Examples.scanner3 Examples.text3 node = [Examples.comment3] /\
  gap = [LF; LF; LF] /\
  newlineCount gap = 3 /\
  produced = 0%nat /\
  produced <> Z.to_nat (Z.max 0 (newlineCount gap - 1)) /\
  fst (@addComments Examples.scanner3 this node) = node.
Proof. repeat split. discriminate. Qed.

(** C2, as the code has it.  Take two nodes of one pass with the same
    region key [(fullStart, contentStart)], in a tree as the parser gives it.
    Whether their trivia span ends up cleared is decided by one and the same
    fact, the key being in the final deleted set: so either both are cleared
    or neither is, the source-file root included.  The root is skipped: it
    comes out as it went in, runs no marker computation, and its key, which
    is the key of the first statement, is never recorded as deleted.  The
    first node with the key other than the root alone gets the scan of the
    region (it is rewritten as a first visit rewrites it), its visit settles
    whether the key is recorded as deleted, and a later node has its trivia
    deleted exactly when the key was so recorded, and is otherwise left as it
    was. *)
Theorem C2_shared_region_all_or_none {ts : TypeScript}
    (file file' : SourceFile) (final : PreserveBlankLinesTransformer)
    (i j : nat) (n m n' m' : Node) :
  transformFile file = (file', Some final) ->
  parsedFile file = true ->
  flatten (ast file) !! i = Some n -> flatten (ast file) !! j = Some m ->
  flatten (ast file') !! i = Some n' -> flatten (ast file') !! j = Some m' ->
  getFullStart m = getFullStart n -> getStart m = getStart n ->
  let K := triviaRangeKey n in
  let this := newTransformer (getFullText file) (firstChildOf file) in
  let deleted := bool_decide (K ∈ _deletedTriviaRanges final) in
  (getFullStart n' = (if deleted then getStart n else getFullStart n) /\
   getFullStart m' = (if deleted then getStart m else getFullStart m)) /\
  (isSourceFile n = true -> n' = n /\ deleted = false) /\
  (isSourceFile n = false ->
   (i < j)%nat ->
   (forall (h : nat) x, (h < i)%nat -> flatten (ast file) !! h = Some x ->
      ~ (isSourceFile x = false /\ getFullStart x = getFullStart n /\
         getStart x = getStart n)) ->
   n' = fst (addComments this n) /\
   ((K ∈ _deletedTriviaRanges final) <->
    (K ∈ _deletedTriviaRanges (snd (addComments this n)))) /\
   m' = (if deleted then deleteTriviaRange m else m)).
Proof.
  intros Htr Hpf Hi Hj Hi' Hj' Hp Hs K this deleted.
  destruct (parsedFile_inv file Hpf) as (root & nodes & Hflat & Hroot & Hnodes & _).
  pose proof (root_range_never_deleted file file' final root nodes Htr Hpf Hflat) as Hrnd.
  destruct (transformFile_visitAll file file' final Htr) as [Hfl Hfinal].
  fold this in Hfl, Hfinal. rewrite Hfl in Hi', Hj'.
  assert (Hkey : triviaRangeKey m = K) by (apply triviaRangeKey_eq; auto).
  assert (Hinv : _deletedTriviaRanges this ⊆ _handledTriviaRanges this)
    by (simpl; set_solver).
  assert (Hsf : forall (k : nat) x,
             flatten (ast file) !! k = Some x -> isSourceFile x = true ->
             x = root /\ k = 0%nat).
  { intros k x Hk Hx. rewrite Hflat in Hk. destruct k as [|k]; simpl in Hk.
    - injection Hk as <-. now split.
    - apply list_elem_of_lookup_2, Hnodes in Hk. congruence. }
  assert (Hpos : forall (k : nat) x x',
             flatten (ast file) !! k = Some x ->
             fst (visitAll this (flatten (ast file))) !! k = Some x' ->
             triviaRangeKey x = K ->
             (isSourceFile x = true -> x' = x /\ deleted = false) /\
             getFullStart x' = (if deleted then getStart x else getFullStart x)).
  { intros k x x' Hk Hk' Hx. destruct (isSourceFile x) eqn:Hsfx.
    - destruct (Hsf k x Hk Hsfx) as [-> ->].
      assert (Hdel : deleted = false).
      { subst deleted. apply bool_decide_eq_false. now rewrite <- Hx. }
      rewrite (visitAll_sourceFile_untouched this _ 0%nat root x' Hk Hk' Hsfx).
      rewrite Hdel. auto.
    - split; [discriminate|].
      rewrite (visitAll_fullStart this _ k x x' Hinv Hk Hk' Hsfx).
      subst deleted. rewrite Hx, <- Hfinal. now case_decide; case_bool_decide. }
  destruct (Hpos i n n' Hi Hi' eq_refl) as [Hn_root Hn_pos].
  destruct (Hpos j m m' Hj Hj' Hkey) as [_ Hm_pos].
  split; [now split|]. split; [exact Hn_root|].
  intros Hsfn Hij Hfirst.
  assert (Hsfm : isSourceFile m = false).
  { destruct (isSourceFile m) eqn:E; [|reflexivity].
    destruct (Hsf j m Hj E) as [_ ->]. lia. }
  destruct (visitAll_first _ _ _ i n n' Hi Hsfn Hfirst Hi') as [Hn' Hiff].
  fold this in Hn', Hiff. rewrite <- Hfinal in Hiff.
  split; [exact Hn'|]. split; [exact Hiff|].
  rewrite (visitAll_later this _ i j n m m' Hi Hsfn Hij Hj Hsfm Hkey Hj').
  subst deleted K. rewrite <- Hfinal. now case_decide; case_bool_decide.
Qed.

(** In the first sample [let x;] and its declaration list share the region
    [(2, 11)]; the statement is rewritten and both end with the span cleared. *)
Lemma C2_shared_region_witness :
  let file' := @preserveBlankLinesTransformer Examples.scanner1 Examples.file1 in
  parsedFile Examples.file1 = true /\
  flatten (ast Examples.file1) !! 2%nat = Some Examples.stmtLet /\
  flatten (ast Examples.file1) !! 3%nat = Some Examples.declList /\
  (exists n' m',
     flatten (ast file') !! 2%nat = Some n' /\ flatten (ast file') !! 3%nat = Some m' /\
     getFullStart n' = 11 /\ getFullStart m' = 11 /\
     n' = fst (@addComments Examples.scanner1 Examples.transformer1 Examples.stmtLet) /\
     m' = deleteTriviaRange Examples.declList).
Proof.
  intros file'.
  pose (r := @transformFile Examples.scanner1 Examples.file1).
  pose (final := default Examples.transformer1 (snd r)).
  assert (Htr : @transformFile Examples.scanner1 Examples.file1 = (file', Some final))
    by (vm_compute; reflexivity).
  assert (Hpf : parsedFile Examples.file1 = true) by reflexivity.
  assert (Hi : flatten (ast Examples.file1) !! 2%nat = Some Examples.stmtLet)
    by reflexivity.
  assert (Hj : flatten (ast Examples.file1) !! 3%nat = Some Examples.declList)
    by reflexivity.
  pose (n' := default Examples.stmtLet (flatten (ast file') !! 2%nat)).
  pose (m' := default Examples.declList (flatten (ast file') !! 3%nat)).
  assert (Hi' : flatten (ast file') !! 2%nat = Some n') by (vm_compute; reflexivity).
  assert (Hj' : flatten (ast file') !! 3%nat = Some m') by (vm_compute; reflexivity).
  assert (Hfirst : forall (h : nat) x, (h < 2)%nat ->
            flatten (ast Examples.file1) !! h = Some x ->
            ~ (isSourceFile x = false /\ getFullStart x = getFullStart Examples.stmtLet /\
               getStart x = getStart Examples.stmtLet)).
  { intros [|[|h]] x Hh Hx (Hsf & Hp & _); [| |lia];
      injection Hx as <-; simpl in *; discriminate. }
  destruct (@C2_shared_region_all_or_none Examples.scanner1 Examples.file1 file' final
              2%nat 3%nat Examples.stmtLet Examples.declList n' m'
              Htr Hpf Hi Hj Hi' Hj' eq_refl eq_refl)
    as ([Hn Hm] & _ & Hfl).
  destruct (Hfl eq_refl ltac:(lia) Hfirst) as (Hn' & _ & Hm').
  split; [exact Hpf|]. split; [exact Hi|]. split; [exact Hj|].
  exists n', m'. split; [exact Hi'|]. split; [exact Hj'|].
  split; [exact Hn|]. split; [exact Hm|]. split; [exact Hn' | exact Hm'].
Defined.

(** C2 as stated fails at the head of a file.  The root and the first
    statement of ["\n\n\nx;"] share the key of the range [(0, 3)], and the
    root is the first node of the pass with that key.  It runs no marker
    computation: it comes out as it went in, with no synthetic comment, and
    the two markers of the range are attached to the second node with the
    key. *)
Lemma C2_root_first_counterexample :
  let file' := @preserveBlankLinesTransformer Examples.scanner5 Examples.file5 in
  let this := newTransformer (getFullText Examples.file5) (firstChildOf Examples.file5) in
  parsedFile Examples.file5 = true /\
  flatten (ast Examples.file5) = [Examples.root5; Examples.first5] /\
  triviaRangeKey Examples.root5 = triviaRangeKey Examples.first5 /\
  newComments (@scanTrivia Examples.scanner5 this Examples.first5) =
    [BLANK_LINE; BLANK_LINE] /\
  flatten (ast file') !! 0%nat = Some Examples.root5 /\
  fst (@addComments Examples.scanner5 this Examples.root5) = Examples.root5 /\
  leadingComments Examples.root5 = [] /\
  (exists first',
     flatten (ast file') !! 1%nat = Some first' /\
     leadingComments first' = [placeholderComment; placeholderComment]).
Proof.
  intros file' this. repeat split.
  exists (fst (@addComments Examples.scanner5 this Examples.first5)). now split.
Qed.

(** C3, as the code has it.  On the first child of the root none of the
    leading comments is attached as a synthetic comment and the raw trivia
    is never deleted, so blank lines in front of or between those comments
    are not preserved.  What is attached is one placeholder for every blank
    line of the gap between the last leading comment and the content start;
    when there is no comment that gap is the whole leading trivia, whose
    blank lines are therefore preserved. *)
Theorem C3_first_child_keeps_last_gap {ts : TypeScript}
    (this : PreserveBlankLinesTransformer) (node : Node) :
  isFirstChild this node = true ->
  isSourceFile node = false ->
  triviaRangeKey node ∉ _handledTriviaRanges this ->
  let text := _sourceFileText this in
  let comments := existingCommentsOf text node in
  let k := Z.to_nat (Z.max 0 (newlineCount (trailingGap text node comments) - 1)) in
  let node' := fst (addComments this node) in
  let this' := snd (addComments this node) in
  leadingComments node' = leadingComments node ++ replicate k placeholderComment /\
  getFullStart node' = getFullStart node /\
  _deletedTriviaRanges this' = _deletedTriviaRanges this /\
  (comments = [] ->
   trailingGap text node comments =
   if getFullStart node <? getStart node then leadingTrivia text node else []).
Proof.
  intros Hfc Hsf Hfresh text comments k. cbv zeta.
  assert (Hseq : newComments (scanTrivia this node) = replicate k BLANK_LINE)
    by (rewrite scanTrivia_newComments, Hfc; reflexivity).
  rewrite addComments_fresh by assumption. cbv zeta. rewrite Hseq.
  rewrite existsb_isExisting_replicate, existsb_isBlankLine_replicate.
  split; [|split; [|split]].
  - destruct k as [|k]; simpl negb; cbv iota.
    + simpl. now rewrite app_nil_r.
    + cbn [fst]. rewrite fold_attach. cbn [leadingComments].
      now rewrite map_replicate.
  - destruct k as [|k]; simpl negb; cbv iota; [reflexivity|].
    cbn [fst]. now rewrite fold_attach.
  - now destruct k.
  - intros Hcs. unfold trailingGap. subst comments. rewrite Hcs. reflexivity.
Qed.

(** The first statement behind two blank lines and a comment line: the
    blank lines in front of the comment are lost, nothing is attached. *)
Lemma C3_first_child_witness :
  let this := Examples.transformer3 in
  let node := Examples.first3 in
  isFirstChild this node = true /\
  isSourceFile node = false /\
  (triviaRangeKey node ∉ _handledTriviaRanges this) /\
  leadingComments (fst (@addComments Examples.scanner3 this node)) = [] /\
  getFullStart (fst (@addComments Examples.scanner3 this node)) = 0.
Proof.
  intros this node.
  assert (Hfc : isFirstChild this node = true) by reflexivity.
  assert (Hsf : isSourceFile node = false) by reflexivity.
  assert (Hfresh : triviaRangeKey node ∉ _handledTriviaRanges this)
    by apply not_elem_of_empty.
  destruct (@C3_first_child_keeps_last_gap Examples.scanner3 this node Hfc Hsf Hfresh)
    as (Hatt & Hpos & _).
  split; [exact Hfc|]. split; [exact Hsf|]. split; [exact Hfresh|].
  split; (etransitivity; [first [exact Hatt | exact Hpos] | reflexivity]).
Defined.

(** C3 as stated fails where the first child has no leading comment: the
    two blank lines in front of its first line are preserved, as two
    placeholders on the node. *)
Lemma C3_no_comment_counterexample :
  let this := Examples.transformer5 in
  let node := Examples.first5 in
  isFirstChild this node = true /\
  @existingCommentsOf Examples.scanner5 Examples.text5 node = [] /\
  leadingTrivia Examples.text5 node = [LF; LF; LF] /\
  leadingComments (fst (@addComments Examples.scanner5 this node)) =
    [placeholderComment; placeholderComment] /\
  leadingComments (fst (@addComments Examples.scanner5 this node)) <> leadingComments node.
Proof. repeat split. discriminate. Qed.

(** C4. When the scan of a node produced at least one marker, the node's
    trivia span is cleared and its region recorded as deleted exactly when
    the sequence holds an existing comment.  A sequence of markers alone
    leaves the span in place and the deleted set as it was. *)
Theorem C4_cleared_iff_existing_comment {ts : TypeScript}
    (this : PreserveBlankLinesTransformer) (node : Node) :
  isSourceFile node = false ->
  triviaRangeKey node ∉ _handledTriviaRanges this ->
  _deletedTriviaRanges this ⊆ _handledTriviaRanges this ->
  existsb isBlankLine (newComments (scanTrivia this node)) = true ->
  let seq := newComments (scanTrivia this node) in
  let node' := fst (addComments this node) in
  let this' := snd (addComments this node) in
  ((triviaRangeKey node ∈ _deletedTriviaRanges this') <-> existsb isExisting seq = true) /\
  (existsb isExisting seq = true ->
     node' = fold_left (attach (_sourceFileText this)) seq (deleteTriviaRange node) /\
     getFullStart node' = getStart node /\
     _deletedTriviaRanges this' = {[triviaRangeKey node]} ∪ _deletedTriviaRanges this) /\
  (existsb isExisting seq = false ->
     node' = fold_left (attach (_sourceFileText this)) seq node /\
     getFullStart node' = getFullStart node /\
     _deletedTriviaRanges this' = _deletedTriviaRanges this).
Proof.
  intros Hsf Hfresh Hinv Hblank. cbv zeta.
  pose proof (addComments_fresh_deleted this node Hsf Hfresh Hinv) as Hdel.
  rewrite Hblank in Hdel.
  split; [rewrite Hdel; tauto|].
  rewrite addComments_fresh by assumption. cbv zeta. rewrite Hblank.
  split; intros He; rewrite He; simpl; rewrite fold_attach; auto.
Qed.

(** On [let x;] of the first sample the sequence is two markers, the
    comment and one more marker: the span is cleared and the region recorded. *)
Lemma C4_cleared_witness :
  let this := Examples.transformer1 in
  let node := Examples.stmtLet in
  let seq := newComments (@scanTrivia Examples.scanner1 this node) in
  seq = [BLANK_LINE; BLANK_LINE; Existing Examples.comment1; BLANK_LINE] /\
  (triviaRangeKey node ∈
     _deletedTriviaRanges (snd (@addComments Examples.scanner1 this node))) /\
  getFullStart (fst (@addComments Examples.scanner1 this node)) = 11.
Proof.
  intros this node seq. split; [reflexivity|].
  assert (Hsf : isSourceFile node = false) by reflexivity.
  assert (Hfresh : triviaRangeKey node ∉ _handledTriviaRanges this)
    by apply not_elem_of_empty.
  assert (Hinv : _deletedTriviaRanges this ⊆ _handledTriviaRanges this)
    by (intros K HK; exact HK).
  assert (Hblank : existsb isBlankLine
                     (newComments (@scanTrivia Examples.scanner1 this node)) = true)
    by reflexivity.
  destruct (@C4_cleared_iff_existing_comment Examples.scanner1 this node
              Hsf Hfresh Hinv Hblank) as (Hiff & Hyes & _).
  split.
  - apply Hiff. reflexivity.
  - destruct (Hyes eq_refl) as (_ & Hpos & _). exact Hpos.
Defined.

(** C5. Every existing comment of the sequence is attached as a synthetic
    comment of the same kind and with the same trailing-newline flag, and
    its text is the comment's source text without its delimiters: the two
    code units in front always, the two at the end for a block comment only.
    So a comment [//inner] and a comment [/*inner*/] are both stored as
    [inner]. *)
Theorem C5_comment_text_without_delimiters {ts : TypeScript}
    (this : PreserveBlankLinesTransformer) (node : Node) (c : CommentRange) :
  isSourceFile node = false ->
  triviaRangeKey node ∉ _handledTriviaRanges this ->
  existsb isBlankLine (newComments (scanTrivia this node)) = true ->
  Existing c ∈ newComments (scanTrivia this node) ->
  0 <= c_pos c -> c_pos c + 2 <= c_end c ->
  c_end c <= Z.of_nat (length (_sourceFileText this)) ->
  let text := _sourceFileText this in
  leadingComments (fst (addComments this node)) =
    leadingComments node ++ map (synthesizedComment text) (newComments (scanTrivia this node)) /\
  synthesizedComment text (Existing c) =
    mkSynthesizedComment
      (c_kind c)
      (stripDelimiters (c_kind c) (slice text (c_pos c) (c_end c)))
      (c_hasTrailingNewLine c) /\
  (forall inner : jsstring,
      c_kind c = SingleLineCommentTrivia ->
      slice text (c_pos c) (c_end c) = lit "//" ++ inner ->
      s_text (synthesizedComment text (Existing c)) = inner) /\
  (forall inner : jsstring,
      c_kind c = MultiLineCommentTrivia ->
      slice text (c_pos c) (c_end c) = lit "/*" ++ inner ++ lit "*/" ->
      s_text (synthesizedComment text (Existing c)) = inner).
Proof.
  intros Hsf Hfresh Hblank Hin Hpos Hlen Hend text.
  assert (Hone : synthesizedComment text (Existing c) =
                 mkSynthesizedComment
                   (c_kind c)
                   (stripDelimiters (c_kind c) (slice text (c_pos c) (c_end c)))
                   (c_hasTrailingNewLine c)).
  { unfold synthesizedComment, stripDelimiters. f_equal.
    destruct (c_kind c).
    - now apply slice_drop_front.
    - now apply slice_drop_both. }
  split; [|split; [exact Hone|split]].
  - rewrite addComments_fresh by assumption. cbv zeta. rewrite Hblank.
    destruct (existsb isExisting _); simpl; now rewrite fold_attach.
  - intros inner Hk Hsrc. rewrite Hone, Hk, Hsrc. reflexivity.
  - intros inner Hk Hsrc. rewrite Hone, Hk, Hsrc. simpl. apply dropEnd_app.
Qed.

(** The block comment [/* hello\nworld */] is stored as [ hello\nworld ]. *)
Lemma C5_block_comment_witness :
  let this := Examples.transformer2 in
  let node := Examples.stmtB in
  let c := Examples.comment2 in
  slice Examples.text2 (c_pos c) (c_end c) = lit "/* hello" ++ [LF] ++ lit "world */" /\
  leadingComments (fst (@addComments Examples.scanner2 this node)) =
    [placeholderComment;
     mkSynthesizedComment MultiLineCommentTrivia
       (lit " hello" ++ [LF] ++ lit "world ") (Some true)] /\
  synthesizedComment Examples.text2 (Existing c) =
    mkSynthesizedComment MultiLineCommentTrivia
      (lit " hello" ++ [LF] ++ lit "world ") (Some true) /\
  s_text (synthesizedComment Examples.text2 (Existing c)) =
    lit " hello" ++ [LF] ++ lit "world ".
Proof.
  intros this node c. split; [reflexivity|].
  assert (Hsf : isSourceFile node = false) by reflexivity.
  assert (Hfresh : triviaRangeKey node ∉ _handledTriviaRanges this)
    by apply not_elem_of_empty.
  assert (Hblank : existsb isBlankLine
                     (newComments (@scanTrivia Examples.scanner2 this node)) = true)
    by reflexivity.
  assert (Hin : Existing c ∈ newComments (@scanTrivia Examples.scanner2 this node))
    by (vm_compute; apply list_elem_of_further, list_elem_of_here).
  assert (Hpos : 0 <= c_pos c) by (vm_compute; discriminate).
  assert (Hlen : c_pos c + 2 <= c_end c) by (vm_compute; discriminate).
  assert (Hend : c_end c <= Z.of_nat (length (_sourceFileText this)))
    by (vm_compute; discriminate).
  destruct (@C5_comment_text_without_delimiters Examples.scanner2 this node c
              Hsf Hfresh Hblank Hin Hpos Hlen Hend) as (Hall & Hone & _ & Hblock).
  split; [etransitivity; [exact Hall | reflexivity]|].
  split; [etransitivity; [exact Hone | reflexivity]|].
  apply Hblock; reflexivity.
Defined.

(** C6 on the code.  The text child of the JSX element of the eighth sample
    has a trivia range of one line feed, and no comment range the scanner
    reports lies in that range: both start at or after the node's content
    start, in what is text of the element.  The node is not left alone all
    the same: [addComments] takes the two reported ranges for its leading
    comments, finds two blank lines between them, moves the full start to
    the content start and attaches four synthetic comments. *)
Theorem C6_jsx_text_node_rewritten :
  let text := Examples.text8 in
  let node := Examples.jsxText8 in
  let file' := @preserveBlankLinesTransformer Examples.scanner8 Examples.file8 in
  parsedFile Examples.file8 = true /\
  flatten (ast Examples.file8) !! 9%nat = Some node /\
  leadingTrivia text node = [LF] /\
  newlineCount (leadingTrivia text node) <= 1 /\
  @existingCommentsOf Examples.scanner8 text node = [Examples.comment8a; Examples.comment8b] /\
  Forall (fun c => getStart node <= c_pos c) (@existingCommentsOf Examples.scanner8 text node) /\
  slice text (c_pos Examples.comment8a) (c_end Examples.comment8b) =
    lit "// a" ++ [LF; LF; LF] ++ lit "// b" /\
  flatten (ast file') !! 9%nat =
    Some (mkNode 9 false 19 19 31
            [mkSynthesizedComment SingleLineCommentTrivia (lit " a") (Some true);
             placeholderComment; placeholderComment;
             mkSynthesizedComment SingleLineCommentTrivia (lit " b") (Some true)]) /\
  flatten (ast file') !! 9%nat <> Some node.
Proof.
  intros text node file'.
  assert (Hout : flatten (ast file') !! 9%nat =
                 Some (mkNode 9 false 19 19 31
                         [mkSynthesizedComment SingleLineCommentTrivia (lit " a") (Some true);
                          placeholderComment; placeholderComment;
                          mkSynthesizedComment SingleLineCommentTrivia (lit " b") (Some true)]))
    by (vm_compute; reflexivity).
  split; [reflexivity|]. split; [reflexivity|]. split; [reflexivity|].
  split; [vm_compute; discriminate|]. split; [reflexivity|].
  split; [repeat constructor; vm_compute; discriminate|].
  split; [reflexivity|]. split; [exact Hout|].
  rewrite Hout. discriminate.
Qed.

(** C7, as the code has it.  On the first child the comment loop pushes
    nothing, whatever lies in front of or between the comments: it only moves
    [previousRegionEnd] to the end of the last comment.  The sequence is the
    markers of the gap between the last comment and the content start, and
    no comment is marked for resynthesis. *)
Theorem C7_first_child_counts_last_gap_only {ts : TypeScript}
    (this : PreserveBlankLinesTransformer) (node : Node) :
  isFirstChild this node = true ->
  let text := _sourceFileText this in
  let comments := existingCommentsOf text node in
  (forall cs s,
      fold_left (scanComment this node) cs s =
      setPreviousRegionEnd (lastRegionEnd (previousRegionEnd s) cs) s) /\
  newComments (scanTrivia this node) = markers (trailingGap text node comments) /\
  anyExistingCommentsToResynthesize (scanTrivia this node) = false.
Proof.
  intros Hfc text comments.
  assert (Hseq : newComments (scanTrivia this node) =
                 markers (trailingGap text node comments))
    by (rewrite scanTrivia_newComments, Hfc; reflexivity).
  split; [|split].
  - intros cs s. now apply fold_scanComment_firstChild.
  - exact Hseq.
  - destruct (scanTrivia_flagsAgree this node) as [_ He]. rewrite He, Hseq.
    apply existsb_isExisting_replicate.
Qed.

(** Two comments two blank lines apart, then one line feed: nothing is
    pushed. *)
Lemma C7_first_child_witness :
  let this := Examples.transformer4 in
  let node := Examples.first4 in
  isFirstChild this node = true /\
  newComments (@scanTrivia Examples.scanner4 this node) = [] /\
  anyExistingCommentsToResynthesize (@scanTrivia Examples.scanner4 this node) = false.
Proof.
  intros this node.
  assert (Hfc : isFirstChild this node = true) by reflexivity.
  destruct (@C7_first_child_counts_last_gap_only Examples.scanner4 this node Hfc)
    as (_ & Hseq & Hex).
  split; [exact Hfc|]. split; [|exact Hex].
  etransitivity; [exact Hseq | reflexivity].
Defined.

(** C7 as stated fails: the gap between the two comments in front of the
    first child holds three line feeds, which stand for two markers, and the
    scan produces no marker at all. *)
Lemma C7_gap_between_comments_counterexample :
  let this := Examples.transformer4 in
  let node := Examples.first4 in
  let gap := slice Examples.text4 (c_end Examples.comment4a) (c_pos Examples.comment4b) in
  let produced :=
    length (filter (fun e => isBlankLine e = true)
                   (newComments (@scanTrivia Examples.scanner4 this node))) in
  isFirstChild this node = true /\
  @existingCommentsOf Examples.scanner4 Examples.text4 node =
    [Examples.comment4a; Examples.comment4b] /\
  gap = [LF; LF; LF] /\
  newlineCount gap = 3 /\
  produced = 0%nat /\
  produced <> Z.to_nat (Z.max 0 (newlineCount gap - 1)) /\
  fst (@addComments Examples.scanner4 this node) = node.
Proof. repeat split. discriminate. Qed.

(** C8, as the code has it.  The placeholder is the fixed literal
    [__BLANK_LINE_PLACEHOLDER_] followed by 32 uppercase letters and digits
    and [__]; it is 59 code units long. *)
Theorem C8_placeholder_token_shape :
  exists random : jsstring,
    BLANK_LINE_PLACEHOLDER_COMMENT = lit "__BLANK_LINE_PLACEHOLDER_" ++ random ++ lit "__" /\
    forallb isUpperAlnum random = true /\
    length random = 32%nat /\
    length BLANK_LINE_PLACEHOLDER_COMMENT = 59%nat.
Proof.
  exists (lit "G1JVXUEBNCL6YN5NFE13MD1PT3H9OIHB"). repeat split; reflexivity.
Qed.

(** C8 as stated fails: the token is not 48 characters long, and neither is
    its random-looking part. *)
Lemma C8_placeholder_length_counterexample :
  length BLANK_LINE_PLACEHOLDER_COMMENT <> 48%nat /\
  forall random : jsstring,
    BLANK_LINE_PLACEHOLDER_COMMENT = lit "__BLANK_LINE_PLACEHOLDER_" ++ random ++ lit "__" ->
    length random <> 48%nat.
Proof.
  split; [discriminate|]. intros random E Hlen.
  apply (f_equal (@length N)) in E. rewrite !length_app, Hlen in E. discriminate.
Qed.

(** C9. On a file whose text is empty the transform returns the file as it
    got it and creates no transformer: no node is visited and no synthetic
    comment attached. *)
Theorem C9_empty_file_returned_unchanged {ts : TypeScript} (file : SourceFile) :
  getFullText file = [] ->
  transformFile file = (file, None) /\ preserveBlankLinesTransformer file = file.
Proof.
  intros H. unfold preserveBlankLinesTransformer, transformFile. rewrite H. now split.
Qed.

(** The empty file comes back as it is. *)
Lemma C9_empty_file_witness :
  getFullText Examples.file6 = [] /\
  @transformFile Examples.scanner5 Examples.file6 = (Examples.file6, None) /\
  @preserveBlankLinesTransformer Examples.scanner5 Examples.file6 = Examples.file6.
Proof.
  split; [reflexivity|].
  apply (@C9_empty_file_returned_unchanged Examples.scanner5 Examples.file6); reflexivity.
Defined.

(** C10. The blank-line count of a string depends on its line feeds only:
    it is [max(0, n - 1)] for [n] the number of ['\n'] code units, whatever
    else the string holds.  Taking out the carriage returns, or any other
    code units than line feeds, leaves the count as it is, so CRLF-terminated
    text counts like its LF-terminated form. *)
Theorem C10_countBlankLines_line_feeds_only (str : jsstring) :
  countBlankLines str = Z.max 0 (newlineCount str - 1) /\
  countBlankLines (filter (fun c => c <> CR) str) = countBlankLines str /\
  (forall (keep : N -> Prop) `{!forall c, Decision (keep c)},
      keep LF -> countBlankLines (filter keep str) = countBlankLines str).
Proof.
  split; [apply countBlankLines_newlineCount|].
  assert (Hgen : forall (keep : N -> Prop) `{!forall c, Decision (keep c)},
             keep LF -> countBlankLines (filter keep str) = countBlankLines str).
  { intros keep Hdec Hkeep. rewrite !countBlankLines_newlineCount.
    now rewrite newlineCount_filter_other. }
  split; [|exact Hgen]. apply Hgen. discriminate.
Qed.

(** * Further properties of the code *)

(** ** Keys, counts and the placeholder pattern *)

(** X1. The template-string key of a trivia range identifies the range: two
    nodes have the same key exactly when they have the same full start and
    the same content start.  No two different ranges collide in the sets. *)
Theorem X1_triviaRangeKey_identifies_range (a b : Node) :
  triviaRangeKey a = triviaRangeKey b <->
  getFullStart a = getFullStart b /\ getStart a = getStart b.
Proof.
  split.
  - unfold triviaRangeKey. intros E.
    destruct (triviaRangeKeyOf_inj _ _ _ _ E) as [Hp Hs]. now split.
  - intros [Hp Hs]. unfold triviaRangeKey. now rewrite Hp, Hs.
Qed.

Lemma countBlankLines_app_eq (s t : jsstring) :
  countBlankLines (s ++ t) = Z.max 0 (newlineCount s + newlineCount t - 1).
Proof. now rewrite countBlankLines_newlineCount, newlineCount_app. Qed.

Lemma newlineCount_le_length (s : jsstring) : newlineCount s <= Z.of_nat (length s).
Proof.
  unfold newlineCount. pose proof (length_filter (fun c => c = LF) s). lia.
Qed.

(** X2. Cutting a string in two never gains a blank line and loses at most
    one: the counts of the two pieces add up to the count of the whole or to
    one less.  A string of [n] code units counts at most [n - 1]. *)
Theorem X2_countBlankLines_of_pieces (s t : jsstring) :
  countBlankLines s + countBlankLines t <= countBlankLines (s ++ t) /\
  countBlankLines (s ++ t) <= countBlankLines s + countBlankLines t + 1 /\
  countBlankLines s <= Z.max 0 (Z.of_nat (length s) - 1).
Proof.
  rewrite countBlankLines_app_eq, !countBlankLines_newlineCount.
  pose proof (newlineCount_nonneg s). pose proof (newlineCount_nonneg t).
  pose proof (newlineCount_le_length s). lia.
Qed.

Section PlaceholderPattern.

Import RegExp.

Lemma matchTerms_star (a : Atom) (terms : list Term) (s : jsstring) :
  matchTerms ((a, true) :: terms) s =
  match s with
  | c :: s' =>
      if atomMatches a c then
        match matchTerms ((a, true) :: terms) s' with
        | Some n => Some (S n)
        | None => matchTerms terms s
        end
      else matchTerms terms s
  | [] => matchTerms terms s
  end.
Proof. destruct s; reflexivity. Qed.

Lemma matchTerms_literal (l s : jsstring) (n : nat) :
  matchTerms (literalTerms l) s = Some n <->
  n = length l /\ exists rest, s = l ++ rest.
Proof.
  revert s n. induction l as [|c l IH]; intros s n; simpl.
  - split.
    + intros [= <-]. split; [reflexivity | now exists s].
    + intros [-> _]. reflexivity.
  - destruct s as [|x s].
    + split; [discriminate | intros [_ [rest E]]; discriminate].
    + destruct (N.eqb_spec x c) as [->|Hne].
      * destruct (matchTerms (literalTerms l) s) as [k|] eqn:Hk; simpl.
        -- apply IH in Hk as [-> [rest ->]]. split.
           ++ intros [= <-]. split; [reflexivity | now exists rest].
           ++ intros [-> _]. reflexivity.
        -- split; [discriminate|]. intros [-> [rest [= ->]]].
           assert (Hk' : matchTerms (literalTerms l) (l ++ rest) = Some (length l))
             by (apply IH; split; [reflexivity | now exists rest]).
           congruence.
      * split; [discriminate|]. intros [_ [rest [= -> _]]]. contradiction.
Qed.

Lemma matchTerms_indented_literal (x : N) (l s : jsstring) (n : nat) :
  isWhiteSpace x = false ->
  matchTerms ((WhiteSpaceClass, true) :: literalTerms (x :: l)) s = Some n <->
  exists ws rest,
    s = ws ++ (x :: l) ++ rest /\ forallb isWhiteSpace ws = true /\
    n = (length ws + length (x :: l))%nat.
Proof.
  intros Hx. revert n. induction s as [|c s IH]; intros n; rewrite matchTerms_star.
  - split; [discriminate|]. intros (ws & rest & E & _). now destruct ws.
  - unfold atomMatches at 1. destruct (isWhiteSpace c) eqn:Hc.
    + destruct (matchTerms ((WhiteSpaceClass, true) :: literalTerms (x :: l)) s)
        as [k|] eqn:Hk.
      * destruct (proj1 (IH k) eq_refl) as (ws & rest & Es & Hws & Ek). split.
        -- intros [= <-]. exists (c :: ws), rest. simpl. rewrite Hc, Hws, Es, Ek. auto.
        -- intros (ws' & rest' & E & Hws' & ->). destruct ws' as [|c' ws'].
           ++ simpl in E. injection E as -> _. congruence.
           ++ simpl in E, Hws'. injection E as <- E.
              apply andb_prop in Hws' as [_ Hws'].
              assert (Hk' : Some k = Some (length ws' + length (x :: l))%nat)
                by (apply IH; eauto 6).
              injection Hk' as ->. reflexivity.
      * split.
        -- intros Hm. apply matchTerms_literal in Hm as [_ [rest [= -> _]]]. congruence.
        -- intros (ws' & rest' & E & Hws' & ->). destruct ws' as [|c' ws'].
           ++ simpl in E. injection E as -> _. congruence.
           ++ simpl in E, Hws'. injection E as <- E.
              apply andb_prop in Hws' as [_ Hws'].
              assert (Hk' : None = Some (length ws' + length (x :: l))%nat)
                by (apply IH; eauto 6).
              discriminate.
    + rewrite matchTerms_literal. split.
      * intros [-> [rest E]]. exists [], rest. auto.
      * intros (ws & rest & E & Hws & ->). destruct ws as [|c' ws].
        -- split; [reflexivity | now exists rest].
        -- simpl in E, Hws. injection E as <- _. rewrite Hc in Hws. discriminate.
Qed.

(** X3. The exported regular expression is [\s*//] followed by the
    placeholder, taken literally (no character of the placeholder is special
    in a pattern).  At any index it matches exactly a run of white space
    followed by a single-line comment whose text starts with the placeholder,
    the indentation and the line break in front of the comment included; the
    match ends with the placeholder. *)
Theorem X3_regexp_matches_indented_placeholder_comment (s : jsstring) (i n : nat) :
  matchAt BLANK_LINE_PLACEHOLDER_COMMENT_REGEXP s i = Some n <->
  exists ws rest,
    drop i s = ws ++ lit "//" ++ BLANK_LINE_PLACEHOLDER_COMMENT ++ rest /\
    forallb isWhiteSpace ws = true /\
    n = (length ws + 2 + length BLANK_LINE_PLACEHOLDER_COMMENT)%nat.
Proof.
  change BLANK_LINE_PLACEHOLDER_COMMENT_REGEXP
    with (Some ((WhiteSpaceClass, true) ::
                literalTerms (lit "//" ++ BLANK_LINE_PLACEHOLDER_COMMENT))).
  unfold matchAt.
  change (lit "//" ++ BLANK_LINE_PLACEHOLDER_COMMENT)
    with (47%N :: 47%N :: BLANK_LINE_PLACEHOLDER_COMMENT).
  rewrite matchTerms_indented_literal by reflexivity.
  split; intros (ws & rest & E & Hws & ->); exists ws, rest;
    (split; [exact E | split; [exact Hws | simpl; lia]]).
Qed.

End PlaceholderPattern.

(** ** What the transform leaves alone *)

Lemma addComments_frameOf {ts : TypeScript} (this : PreserveBlankLinesTransformer)
    (node : Node) :
  frameOf (fst (addComments this node)) = frameOf node.
Proof.
  destruct (isSourceFile node) eqn:Hsf; [now rewrite addComments_sourceFile|].
  destruct (decide (triviaRangeKey node ∈ _handledTriviaRanges this)) as [Hin|Hnin].
  - rewrite addComments_handled by assumption. simpl. now case_decide.
  - rewrite addComments_fresh by assumption. cbv zeta.
    destruct (existsb isBlankLine _); [|reflexivity].
    destruct (existsb isExisting _); simpl; now rewrite fold_attach.
Qed.

Lemma visit_frame {ts : TypeScript} (t : Ast) :
  forall this, frame (fst (visit this t)) = frame t.
Proof.
  induction t as [node children IH] using Ast_forall_ind. intros this. simpl.
  pose proof (addComments_frameOf this node) as Hnode.
  destruct (addComments this node) as [node' this1]. simpl in Hnode.
  assert (Hch : forall this,
             map frame (fst (visitEachChild visit this children)) = map frame children).
  { clear this this1 node node' Hnode.
    induction IH as [|c cs Hc _ IHcs]; intros this; [reflexivity|].
    simpl. specialize (Hc this). destruct (visit this c) as [c' this1].
    specialize (IHcs this1). destruct (visitEachChild visit this1 cs) as [cs' this2].
    simpl in *. now rewrite Hc, IHcs. }
  specialize (Hch this1). destruct (visitEachChild visit this1 children) as [cs' this2].
  simpl in *. now rewrite Hnode, Hch.
Qed.

(** X4. The transform keeps the tree as it is but for the full start and the
    synthetic comments of its nodes: the output has the same shape, and every
    node keeps its identity, its kind, its content start and its end; the
    text of the file is not touched. *)
Theorem X4_transform_keeps_tree_and_offsets {ts : TypeScript} (file : SourceFile) :
  frame (ast (preserveBlankLinesTransformer file)) = frame (ast file) /\
  getFullText (preserveBlankLinesTransformer file) = getFullText file /\
  map nid (flatten (ast (preserveBlankLinesTransformer file))) =
    map nid (flatten (ast file)).
Proof.
  assert (Hflat : forall t, map nid (flatten t) = map nid (flatten (frame t))).
  { induction t as [node children IH] using Ast_forall_ind. simpl. f_equal.
    induction IH as [|c cs Hc _ IHcs]; [reflexivity|].
    simpl. now rewrite !map_app, Hc, IHcs. }
  assert (Hframe : frame (ast (preserveBlankLinesTransformer file)) = frame (ast file)
                   /\ getFullText (preserveBlankLinesTransformer file) = getFullText file).
  { unfold preserveBlankLinesTransformer.
    destruct (falsy (getFullText file)) eqn:Hf.
    - unfold transformFile. rewrite Hf. now split.
    - rewrite transformFile_walk by exact Hf. simpl. split; [apply visit_frame | reflexivity]. }
  destruct Hframe as [Hfr Htxt]. split; [exact Hfr|]. split; [exact Htxt|].
  now rewrite Hflat, Hfr, <- Hflat.
Qed.

(** Every node of the output is the result of one call of [addComments] on
    the node at the same place of the input, in some state of the file's
    transformer (or the node itself, when the text is empty). *)
Lemma transform_lookup {ts : TypeScript} (file : SourceFile) (i : nat) (n n' : Node) :
  flatten (ast file) !! i = Some n ->
  flatten (ast (preserveBlankLinesTransformer file)) !! i = Some n' ->
  n' = n \/
  exists this,
    _sourceFileText this = getFullText file /\
    _firstChild this = firstChildOf file /\
    n' = fst (addComments this n).
Proof.
  intros Hi Hi'. unfold preserveBlankLinesTransformer in Hi'.
  destruct (falsy (getFullText file)) eqn:Hf.
  - unfold transformFile in Hi'. rewrite Hf in Hi'. simpl in Hi'. left. congruence.
  - rewrite transformFile_walk in Hi' by exact Hf. simpl in Hi'.
    set (this := newTransformer _ _) in Hi'.
    destruct (visit_visitAll (ast file) this) as [Hflat _]. rewrite Hflat in Hi'.
    destruct (visitAll_lookup this (flatten (ast file)) i n Hi) as [Hn _].
    rewrite Hn in Hi'. injection Hi' as <-. right.
    exists (snd (visitAll this (take i (flatten (ast file))))).
    split; [apply visitAll_sourceFileText|]. split; [apply visitAll_firstChild | reflexivity].
Qed.

Lemma interleaved_existing (text : jsstring) (p : Z) (cs : list CommentRange)
    (c : CommentRange) :
  Existing c ∈ interleaved text p cs -> c ∈ cs.
Proof.
  revert p. induction cs as [|c0 cs IH]; intros p H; simpl in H.
  - now apply elem_of_nil in H.
  - apply elem_of_app in H as [H|H].
    + unfold markers in H. apply elem_of_replicate in H as [[=] _].
    + apply elem_of_cons in H as [[= ->]|H];
        [apply list_elem_of_here | apply list_elem_of_further; eauto].
Qed.

Lemma scanTrivia_existing_from_region {ts : TypeScript}
    (this : PreserveBlankLinesTransformer) (node : Node) (c : CommentRange) :
  Existing c ∈ newComments (scanTrivia this node) ->
  c ∈ existingCommentsOf (_sourceFileText this) node.
Proof.
  rewrite scanTrivia_newComments. intros [H|H]%elem_of_app.
  - destruct (isFirstChild this node); [now apply elem_of_nil in H|].
    now apply interleaved_existing in H.
  - unfold markers in H. apply elem_of_replicate in H as [[=] _].
Qed.

Lemma addComments_effect {ts : TypeScript} (this : PreserveBlankLinesTransformer)
    (node : Node) :
  exists seq,
    leadingComments (fst (addComments this node)) =
      leadingComments node ++ map (synthesizedComment (_sourceFileText this)) seq /\
    (forall c, Existing c ∈ seq -> c ∈ existingCommentsOf (_sourceFileText this) node) /\
    (getFullStart (fst (addComments this node)) = getFullStart node \/
     getFullStart (fst (addComments this node)) = getStart node).
Proof.
  assert (Hnil : forall n' : Node,
             leadingComments n' = leadingComments node ->
             (getFullStart n' = getFullStart node \/ getFullStart n' = getStart node) ->
             exists seq,
               leadingComments n' =
                 leadingComments node ++ map (synthesizedComment (_sourceFileText this)) seq /\
               (forall c, Existing c ∈ seq ->
                          c ∈ existingCommentsOf (_sourceFileText this) node) /\
               (getFullStart n' = getFullStart node \/ getFullStart n' = getStart node)).
  { intros n' Hlc Hpos. exists []. simpl. rewrite app_nil_r.
    split; [exact Hlc|]. split; [|exact Hpos]. intros c H. now apply elem_of_nil in H. }
  destruct (isSourceFile node) eqn:Hsf.
  { rewrite addComments_sourceFile by exact Hsf. apply Hnil; auto. }
  destruct (decide (triviaRangeKey node ∈ _handledTriviaRanges this)) as [Hin|Hnin].
  { rewrite addComments_handled by assumption. simpl.
    case_decide; apply Hnil; auto. }
  rewrite addComments_fresh by assumption. cbv zeta.
  destruct (existsb isBlankLine _); [|apply Hnil; auto].
  exists (newComments (scanTrivia this node)).
  destruct (existsb isExisting _); simpl; rewrite fold_attach; simpl;
    (split; [reflexivity|]); (split; [apply scanTrivia_existing_from_region|]); auto.
Qed.

(** X5. Whatever the transform does to a node, it only appends to the
    node's synthetic comments, and every comment it appends is either the
    placeholder comment or the re-synthesis of one of that node's own leading
    comments; the node's full start is left alone or moved to its content
    start, nowhere else. *)
Theorem X5_transform_only_appends_own_comments {ts : TypeScript}
    (file : SourceFile) (i : nat) (n n' : Node) :
  flatten (ast file) !! i = Some n ->
  flatten (ast (preserveBlankLinesTransformer file)) !! i = Some n' ->
  let text := getFullText file in
  (exists added,
     leadingComments n' = leadingComments n ++ added /\
     forall sc, sc ∈ added ->
       sc = placeholderComment \/
       exists c, c ∈ existingCommentsOf text n /\ sc = synthesizedComment text (Existing c)) /\
  (getFullStart n' = getFullStart n \/ getFullStart n' = getStart n).
Proof.
  intros Hi Hi' text.
  destruct (transform_lookup file i n n' Hi Hi') as [->|(this & Htxt & _ & ->)].
  - split; [|now left]. exists []. rewrite app_nil_r. split; [reflexivity|].
    intros sc H. now apply elem_of_nil in H.
  - destruct (addComments_effect this n) as (seq & Hlc & Hseq & Hpos).
    rewrite Htxt in Hlc, Hseq. fold text in Hlc, Hseq.
    split; [|exact Hpos].
    exists (map (synthesizedComment text) seq). split; [exact Hlc|].
    intros sc Hsc. apply list_elem_of_In, in_map_iff in Hsc as (e & <- & He).
    apply list_elem_of_In in He. destruct e as [|c]; [now left|].
    right. exists c. split; [now apply Hseq | reflexivity].
Qed.

(** On [let x;] of the first sample: the four comments appended and the
    full start moved to the content start. *)
Lemma X5_only_appends_witness :
  let file' := @preserveBlankLinesTransformer Examples.scanner1 Examples.file1 in
  flatten (ast Examples.file1) !! 2%nat = Some Examples.stmtLet /\
  exists n',
    flatten (ast file') !! 2%nat = Some n' /\
    length (leadingComments n') = 4%nat /\
    (getFullStart n' = 2 \/ getFullStart n' = 11).
Proof.
  intros file'.
  assert (Hi : flatten (ast Examples.file1) !! 2%nat = Some Examples.stmtLet) by reflexivity.
  pose (n' := default Examples.stmtLet (flatten (ast file') !! 2%nat)).
  assert (Hi' : flatten (ast file') !! 2%nat = Some n') by (vm_compute; reflexivity).
  destruct (@X5_transform_only_appends_own_comments Examples.scanner1 Examples.file1
              2%nat Examples.stmtLet n' Hi Hi') as [_ Hpos].
  split; [exact Hi|]. exists n'. split; [exact Hi'|]. split; [reflexivity | exact Hpos].
Defined.

(** ** Comments are neither lost nor doubled *)

Lemma commentsOf_app (a b : list Entry) : commentsOf (a ++ b) = commentsOf a ++ commentsOf b.
Proof. unfold commentsOf. apply flat_map_app. Qed.

Lemma commentsOf_markers (gap : jsstring) : commentsOf (markers gap) = [].
Proof. unfold markers. induction (Z.to_nat _) as [|k IH]; [reflexivity | exact IH]. Qed.

Lemma commentsOf_interleaved (text : jsstring) (p : Z) (cs : list CommentRange) :
  commentsOf (interleaved text p cs) = cs.
Proof.
  revert p. induction cs as [|c cs IH]; intros p; [reflexivity|].
  simpl. rewrite commentsOf_app, commentsOf_markers. simpl.
  change (flat_map _ (interleaved text (c_end c) cs))
    with (commentsOf (interleaved text (c_end c) cs)).
  now rewrite IH.
Qed.

(** X6. The node that first carries a region never loses a leading comment:
    either its raw trivia stays in place (its full start is unchanged), or
    the sequence attached to it holds every leading comment of the region,
    each once and in source order. *)
Theorem X6_no_comment_lost {ts : TypeScript}
    (this : PreserveBlankLinesTransformer) (node : Node) :
  isSourceFile node = false ->
  triviaRangeKey node ∉ _handledTriviaRanges this ->
  let text := _sourceFileText this in
  let seq := newComments (scanTrivia this node) in
  let node' := fst (addComments this node) in
  getFullStart node' = getFullStart node \/
  (leadingComments node' = leadingComments node ++ map (synthesizedComment text) seq /\
   commentsOf seq = existingCommentsOf text node).
Proof.
  intros Hsf Hfresh. cbv zeta. rewrite addComments_fresh by assumption. cbv zeta.
  destruct (existsb isBlankLine _); [|now left].
  destruct (existsb isExisting _) eqn:He; [right | left; simpl; now rewrite fold_attach].
  simpl. rewrite fold_attach. simpl. split; [reflexivity|].
  rewrite scanTrivia_newComments in He |- *.
  rewrite commentsOf_app, commentsOf_markers, app_nil_r.
  destruct (isFirstChild this node).
  - simpl in He. unfold markers in He.
    rewrite existsb_isExisting_replicate in He. discriminate.
  - apply commentsOf_interleaved.
Qed.

(** On [let x;] of the first sample the trivia is deleted and the one
    comment of the region is in the sequence. *)
Lemma X6_no_comment_lost_witness :
  let this := Examples.transformer1 in
  let node := Examples.stmtLet in
  isSourceFile node = false /\
  (triviaRangeKey node ∉ _handledTriviaRanges this) /\
  getFullStart (fst (@addComments Examples.scanner1 this node)) <> getFullStart node /\
  commentsOf (newComments (@scanTrivia Examples.scanner1 this node)) = [Examples.comment1].
Proof.
  intros this node.
  assert (Hsf : isSourceFile node = false) by reflexivity.
  assert (Hfresh : triviaRangeKey node ∉ _handledTriviaRanges this)
    by apply not_elem_of_empty.
  assert (Hmoved : getFullStart (fst (@addComments Examples.scanner1 this node)) <>
                   getFullStart node) by (vm_compute; discriminate).
  split; [exact Hsf|]. split; [exact Hfresh|]. split; [exact Hmoved|].
  destruct (@X6_no_comment_lost Examples.scanner1 this node Hsf Hfresh) as [Hsame|[_ Hall]].
  - contradiction.
  - etransitivity; [exact Hall | reflexivity].
Defined.

(** X7. A trivia range is handled once: a node whose range was already
    carried by an earlier node of the walk gets no synthetic comment, so no
    comment or placeholder is emitted twice for a shared range. *)
Theorem X7_shared_range_annotated_once {ts : TypeScript}
    (file : SourceFile) (i j : nat) (n m m' : Node) :
  (i < j)%nat ->
  flatten (ast file) !! i = Some n -> flatten (ast file) !! j = Some m ->
  flatten (ast (preserveBlankLinesTransformer file)) !! j = Some m' ->
  isSourceFile n = false -> isSourceFile m = false ->
  getFullStart m = getFullStart n -> getStart m = getStart n ->
  leadingComments m' = leadingComments m /\
  (m' = m \/ m' = deleteTriviaRange m).
Proof.
  intros Hij Hi Hj Hj' Hsfn Hsfm Hp Hs. unfold preserveBlankLinesTransformer in Hj'.
  destruct (falsy (getFullText file)) eqn:Hf.
  - unfold transformFile in Hj'. rewrite Hf in Hj'. simpl in Hj'.
    assert (m' = m) as -> by congruence. auto.
  - rewrite transformFile_walk in Hj' by exact Hf. simpl in Hj'.
    set (this := newTransformer _ _) in Hj'.
    destruct (visit_visitAll (ast file) this) as [Hflat _]. rewrite Hflat in Hj'.
    assert (Hkey : triviaRangeKey m = triviaRangeKey n)
      by (apply triviaRangeKey_eq; auto).
    rewrite (visitAll_later this _ i j n m m' Hi Hsfn Hij Hj Hsfm Hkey Hj').
    case_decide; auto.
Qed.

(** The declaration list of [let x;] in the first sample. *)
Lemma X7_annotated_once_witness :
  let file' := @preserveBlankLinesTransformer Examples.scanner1 Examples.file1 in
  flatten (ast Examples.file1) !! 2%nat = Some Examples.stmtLet /\
  flatten (ast Examples.file1) !! 3%nat = Some Examples.declList /\
  exists m',
    flatten (ast file') !! 3%nat = Some m' /\
    leadingComments m' = [] /\ (m' = Examples.declList \/ m' = deleteTriviaRange Examples.declList).
Proof.
  intros file'.
  assert (Hi : flatten (ast Examples.file1) !! 2%nat = Some Examples.stmtLet) by reflexivity.
  assert (Hj : flatten (ast Examples.file1) !! 3%nat = Some Examples.declList) by reflexivity.
  pose (m' := default Examples.declList (flatten (ast file') !! 3%nat)).
  assert (Hj' : flatten (ast file') !! 3%nat = Some m') by (vm_compute; reflexivity).
  assert (Hij : (2 < 3)%nat) by lia.
  destruct (@X7_shared_range_annotated_once Examples.scanner1 Examples.file1
              2%nat 3%nat Examples.stmtLet Examples.declList m'
              Hij Hi Hj Hj' eq_refl eq_refl eq_refl eq_refl) as [Hlc Hm].
  split; [exact Hi|]. split; [exact Hj|]. exists m'.
  split; [exact Hj'|]. split; [exact Hlc | exact Hm].
Defined.

(** ** The two sets at the end of the walk *)

Lemma visitAll_handled_all {ts : TypeScript} (this : PreserveBlankLinesTransformer)
    (nodes : list Node) (m : Node) :
  m ∈ nodes -> isSourceFile m = false ->
  triviaRangeKey m ∈ _handledTriviaRanges (snd (visitAll this nodes)).
Proof.
  intros [i Hi]%list_elem_of_lookup Hsf.
  rewrite (visitAll_from this nodes (S i)). apply visitAll_handled_mono.
  apply (visitAll_handled_at this nodes i (S i) m Hi Hsf). lia.
Qed.

Lemma addComments_deleted_origin {ts : TypeScript} (this : PreserveBlankLinesTransformer)
    (node : Node) (K : jsstring) :
  K ∈ _deletedTriviaRanges (snd (addComments this node)) ->
  K ∈ _deletedTriviaRanges this \/
  (isSourceFile node = false /\ K = triviaRangeKey node /\
   existsb isBlankLine (newComments (scanTrivia this node)) = true /\
   existsb isExisting (newComments (scanTrivia this node)) = true).
Proof.
  destruct (isSourceFile node) eqn:Hsf; [rewrite addComments_sourceFile by exact Hsf; auto|].
  destruct (decide (triviaRangeKey node ∈ _handledTriviaRanges this)) as [Hin|Hnin].
  { rewrite addComments_handled by assumption. auto. }
  rewrite addComments_fresh by assumption. cbv zeta.
  destruct (existsb isBlankLine _); [|simpl; auto].
  destruct (existsb isExisting _); simpl; [|auto].
  intros [->%elem_of_singleton|HK]%elem_of_union; auto.
Qed.

Lemma visitAll_deleted_origin {ts : TypeScript} (this : PreserveBlankLinesTransformer)
    (nodes : list Node) (K : jsstring) :
  K ∈ _deletedTriviaRanges (snd (visitAll this nodes)) ->
  K ∈ _deletedTriviaRanges this \/
  exists m, m ∈ nodes /\ isSourceFile m = false /\ K = triviaRangeKey m /\
            existsb isBlankLine (newComments (scanTrivia this m)) = true /\
            existsb isExisting (newComments (scanTrivia this m)) = true.
Proof.
  revert this. induction nodes as [|n l IH]; intros this HK; [now left|].
  rewrite visitAll_cons in HK. simpl in HK.
  apply IH in HK as [HK|(m & Hm & Hsf & -> & Hb & He)].
  - apply addComments_deleted_origin in HK as [HK|(Hsf & -> & Hb & He)]; [now left|].
    right. exists n. split; [apply list_elem_of_here | auto].
  - right. exists m. split; [now apply list_elem_of_further|].
    rewrite (scanTrivia_sameFile _ this) in Hb, He
      by (apply addComments_sourceFileText || apply addComments_firstChild).
    auto.
Qed.

(** X8. At the end of the walk the handled set holds exactly the keys of the
    nodes of the tree other than source files, and every deleted key is a
    handled key. *)
Theorem X8_handled_set_is_the_visited_ranges {ts : TypeScript}
    (file file' : SourceFile) (final : PreserveBlankLinesTransformer) :
  transformFile file = (file', Some final) ->
  (forall K : jsstring,
      K ∈ _handledTriviaRanges final <->
      exists m, m ∈ flatten (ast file) /\ isSourceFile m = false /\ triviaRangeKey m = K) /\
  _deletedTriviaRanges final ⊆ _handledTriviaRanges final.
Proof.
  intros Htr. destruct (transformFile_visitAll file file' final Htr) as [_ ->].
  set (this := newTransformer _ _). split.
  - intros K. split.
    + intros [HK|(m & Hm & Hsf & ->)]%visitAll_handled_origin.
      * simpl in HK. set_solver.
      * exists m. auto.
    + intros (m & Hm & Hsf & <-). now apply visitAll_handled_all.
  - apply visitAll_deleted_subset. simpl. set_solver.
Qed.

Lemma X8_handled_set_witness :
  exists file' final,
    @transformFile Examples.scanner1 Examples.file1 = (file', Some final) /\
    (triviaRangeKey Examples.stmtLet ∈ _handledTriviaRanges final) /\
    _deletedTriviaRanges final ⊆ _handledTriviaRanges final.
Proof.
  pose (r := @transformFile Examples.scanner1 Examples.file1).
  pose (final := default Examples.transformer1 (snd r)).
  assert (Htr : @transformFile Examples.scanner1 Examples.file1 = (fst r, Some final))
    by (vm_compute; reflexivity).
  destruct (@X8_handled_set_is_the_visited_ranges Examples.scanner1 Examples.file1
              (fst r) final Htr) as [Hiff Hsub].
  exists (fst r), final. split; [exact Htr|]. split; [|exact Hsub].
  apply Hiff. exists Examples.stmtLet. split; [|split; reflexivity].
  apply list_elem_of_further, list_elem_of_further, list_elem_of_here.
Defined.

(** X9. A range is recorded as deleted only on account of a node of the
    tree that carries it, is not the first child, has leading comments, and
    whose scan found at least one blank line to mark. *)
Theorem X9_deleted_only_when_needed {ts : TypeScript}
    (file file' : SourceFile) (final : PreserveBlankLinesTransformer) (K : jsstring) :
  transformFile file = (file', Some final) ->
  K ∈ _deletedTriviaRanges final ->
  let this := newTransformer (getFullText file) (firstChildOf file) in
  exists m,
    m ∈ flatten (ast file) /\ isSourceFile m = false /\ triviaRangeKey m = K /\
    isFirstChild this m = false /\
    existingCommentsOf (getFullText file) m <> [] /\
    existsb isBlankLine (newComments (scanTrivia this m)) = true.
Proof.
  intros Htr HK this.
  destruct (transformFile_visitAll file file' final Htr) as [_ ->]. fold this in HK.
  apply visitAll_deleted_origin in HK as [HK|(m & Hm & Hsf & -> & Hb & He)].
  { simpl in HK. set_solver. }
  exists m. split; [exact Hm|]. split; [exact Hsf|]. split; [reflexivity|].
  split; [|split; [|exact Hb]].
  - destruct (isFirstChild this m) eqn:Hfc; [|reflexivity].
    rewrite scanTrivia_newComments, Hfc in He. simpl in He. unfold markers in He.
    rewrite existsb_isExisting_replicate in He. discriminate.
  - now apply (scanTrivia_existing_comments this m).
Qed.

Lemma X9_deleted_witness :
  exists file' final m,
    @transformFile Examples.scanner1 Examples.file1 = (file', Some final) /\
    (triviaRangeKey Examples.stmtLet ∈ _deletedTriviaRanges final) /\
    m ∈ flatten (ast Examples.file1) /\
    triviaRangeKey m = triviaRangeKey Examples.stmtLet /\
    @existingCommentsOf Examples.scanner1 Examples.text1 m <> [].
Proof.
  pose (r := @transformFile Examples.scanner1 Examples.file1).
  pose (final := default Examples.transformer1 (snd r)).
  assert (Htr : @transformFile Examples.scanner1 Examples.file1 = (fst r, Some final))
    by (vm_compute; reflexivity).
  assert (HKb : bool_decide (triviaRangeKey Examples.stmtLet ∈ _deletedTriviaRanges final)
                = true) by (vm_compute; reflexivity).
  assert (HK : triviaRangeKey Examples.stmtLet ∈ _deletedTriviaRanges final)
    by (apply bool_decide_eq_true in HKb; exact HKb).
  destruct (@X9_deleted_only_when_needed Examples.scanner1 Examples.file1 (fst r) final
              (triviaRangeKey Examples.stmtLet) Htr HK)
    as (m & Hm & _ & Hkey & _ & Hcs & _).
  exists (fst r), final, m. auto.
Defined.

(** X10. The trivia range of the first statement, which the source-file
    root has too, is never recorded as deleted, and every node with that
    range, the root included, keeps its full start: the raw trivia at the
    head of the file is never removed. *)
Theorem X10_first_statement_range_left_in_place {ts : TypeScript}
    (file file' : SourceFile) (final : PreserveBlankLinesTransformer)
    (root first : Node) (rest : list Node) :
  transformFile file = (file', Some final) ->
  flatten (ast file) = root :: first :: rest ->
  isSourceFile root = true -> isSourceFile first = false ->
  firstChildOf file = Some (nid first) ->
  (triviaRangeKey first ∉ _deletedTriviaRanges final) /\
  forall (i : nat) n n',
    flatten (ast file) !! i = Some n -> flatten (ast file') !! i = Some n' ->
    getFullStart n = getFullStart first -> getStart n = getStart first ->
    getFullStart n' = getFullStart n.
Proof.
  intros Htr Hflat Hroot Hfirst Hfc.
  pose proof (first_statement_region_never_deleted file file' final root first rest
                Htr Hflat Hroot Hfirst Hfc) as Hnd.
  split; [exact Hnd|]. intros i n n' Hi Hi' Hp Hs.
  destruct (transformFile_visitAll file file' final Htr) as [Hfl Hfin].
  set (this := newTransformer _ _) in *. rewrite Hfl in Hi'.
  destruct (isSourceFile n) eqn:Hsf.
  - destruct (visitAll_lookup this _ i n Hi) as [Hn _].
    rewrite Hi' in Hn. injection Hn as ->. now rewrite addComments_sourceFile.
  - assert (Hinv : _deletedTriviaRanges this ⊆ _handledTriviaRanges this)
      by (simpl; set_solver).
    rewrite (visitAll_fullStart this _ i n n' Hinv Hi Hi' Hsf).
    assert (Hkey : triviaRangeKey n = triviaRangeKey first)
      by (apply triviaRangeKey_eq; auto).
    rewrite Hkey, <- Hfin. now case_decide.
Qed.

(** The first sample: [a;] is the first statement. *)
Lemma X10_first_statement_witness :
  exists file' final,
    @transformFile Examples.scanner1 Examples.file1 = (file', Some final) /\
    flatten (ast Examples.file1) =
      Examples.root1 :: Examples.stmtA :: [Examples.stmtLet; Examples.declList] /\
    (triviaRangeKey Examples.stmtA ∉ _deletedTriviaRanges final).
Proof.
  pose (r := @transformFile Examples.scanner1 Examples.file1).
  pose (final := default Examples.transformer1 (snd r)).
  assert (Htr : @transformFile Examples.scanner1 Examples.file1 = (fst r, Some final))
    by (vm_compute; reflexivity).
  assert (Hflat : flatten (ast Examples.file1) =
                  Examples.root1 :: Examples.stmtA :: [Examples.stmtLet; Examples.declList])
    by reflexivity.
  exists (fst r), final. split; [exact Htr|]. split; [exact Hflat|].
  exact (proj1 (@X10_first_statement_range_left_in_place Examples.scanner1 Examples.file1
                  (fst r) final Examples.root1 Examples.stmtA _
                  Htr Hflat eq_refl eq_refl eq_refl)).
Defined.

(** ** Files and regions without blank lines *)

Lemma newlineCount_take_le (s : jsstring) (k : nat) : newlineCount (take k s) <= newlineCount s.
Proof.
  rewrite <- (take_drop k s) at 2. rewrite newlineCount_app.
  pose proof (newlineCount_nonneg (drop k s)). lia.
Qed.

Lemma newlineCount_drop_le (s : jsstring) (k : nat) : newlineCount (drop k s) <= newlineCount s.
Proof.
  rewrite <- (take_drop k s) at 2. rewrite newlineCount_app.
  pose proof (newlineCount_nonneg (take k s)). lia.
Qed.

Lemma newlineCount_slice_le (s : jsstring) (a b : Z) :
  newlineCount (slice s a b) <= newlineCount s.
Proof.
  unfold slice. cbv zeta. destruct (_ >=? _).
  - rewrite newlineCount_nil. apply newlineCount_nonneg.
  - etransitivity; [apply newlineCount_take_le | apply newlineCount_drop_le].
Qed.

Lemma interleaved_no_markers (text : jsstring) (p : Z) (cs : list CommentRange) :
  newlineCount text <= 1 -> existsb isBlankLine (interleaved text p cs) = false.
Proof.
  intros Hnl. revert p. induction cs as [|c cs IH]; intros p; [reflexivity|].
  simpl. rewrite markers_at_most_one_newline
    by (pose proof (newlineCount_slice_le text p (c_pos c)); lia).
  simpl. apply IH.
Qed.

Lemma scanTrivia_single_line {ts : TypeScript} (this : PreserveBlankLinesTransformer)
    (node : Node) :
  newlineCount (_sourceFileText this) <= 1 ->
  existsb isBlankLine (newComments (scanTrivia this node)) = false.
Proof.
  intros Hnl. rewrite scanTrivia_newComments, existsb_app.
  assert (Hgap : markers (trailingGap (_sourceFileText this) node
                            (existingCommentsOf (_sourceFileText this) node)) = []).
  { apply markers_at_most_one_newline. unfold trailingGap. cbv zeta.
    destruct (_ <? _); [|rewrite newlineCount_nil; lia].
    etransitivity; [apply newlineCount_slice_le | exact Hnl]. }
  rewrite Hgap. simpl. rewrite orb_false_r.
  destruct (isFirstChild this node); [reflexivity | now apply interleaved_no_markers].
Qed.

Lemma addComments_single_line {ts : TypeScript} (this : PreserveBlankLinesTransformer)
    (node : Node) :
  newlineCount (_sourceFileText this) <= 1 ->
  _deletedTriviaRanges this = ∅ ->
  fst (addComments this node) = node /\
  _deletedTriviaRanges (snd (addComments this node)) = ∅.
Proof.
  intros Hnl Hdel.
  destruct (isSourceFile node) eqn:Hsf; [now rewrite addComments_sourceFile|].
  destruct (decide (triviaRangeKey node ∈ _handledTriviaRanges this)) as [Hin|Hnin].
  - rewrite addComments_handled by assumption. simpl. rewrite Hdel.
    case_decide as H; [now apply not_elem_of_empty in H | auto].
  - rewrite addComments_fresh by assumption. cbv zeta.
    rewrite scanTrivia_single_line by exact Hnl. auto.
Qed.

Lemma visit_single_line {ts : TypeScript} (t : Ast) :
  forall this,
    newlineCount (_sourceFileText this) <= 1 ->
    _deletedTriviaRanges this = ∅ ->
    fst (visit this t) = t /\
    _deletedTriviaRanges (snd (visit this t)) = ∅ /\
    _sourceFileText (snd (visit this t)) = _sourceFileText this.
Proof.
  induction t as [node children IH] using Ast_forall_ind. intros this Hnl Hdel. simpl.
  destruct (addComments_single_line this node Hnl Hdel) as [Hn Hd1].
  pose proof (addComments_sourceFileText this node) as Ht1.
  destruct (addComments this node) as [node' this1]. simpl in Hn, Hd1, Ht1. subst node'.
  assert (Hch : forall this,
             newlineCount (_sourceFileText this) <= 1 ->
             _deletedTriviaRanges this = ∅ ->
             fst (visitEachChild visit this children) = children /\
             _deletedTriviaRanges (snd (visitEachChild visit this children)) = ∅ /\
             _sourceFileText (snd (visitEachChild visit this children)) =
               _sourceFileText this).
  { clear this this1 Hnl Hdel Hd1 Ht1 node.
    induction IH as [|c cs Hc _ IHcs]; intros this Hnl Hdel; [now repeat split|].
    simpl. destruct (Hc this Hnl Hdel) as (Hc1 & Hc2 & Hc3).
    destruct (visit this c) as [c' this1]. simpl in Hc1, Hc2, Hc3.
    destruct (IHcs this1) as (Hs1 & Hs2 & Hs3); [now rewrite Hc3 | exact Hc2 |].
    destruct (visitEachChild visit this1 cs) as [cs' this2]. simpl in *.
    subst. repeat split; congruence. }
  destruct (Hch this1) as (H1 & H2 & H3); [now rewrite Ht1 | exact Hd1 |].
  destruct (visitEachChild visit this1 children) as [cs' this2]. simpl in *.
  subst. repeat split; congruence.
Qed.

(** X11. A file whose text holds at most one line feed has no blank line to
    preserve: the transform returns it exactly as it is, every node
    untouched. *)
Theorem X11_single_line_file_returned_unchanged {ts : TypeScript} (file : SourceFile) :
  newlineCount (getFullText file) <= 1 ->
  preserveBlankLinesTransformer file = file.
Proof.
  intros Hnl. unfold preserveBlankLinesTransformer.
  destruct (falsy (getFullText file)) eqn:Hf.
  - unfold transformFile. now rewrite Hf.
  - rewrite transformFile_walk by exact Hf. simpl.
    destruct (visit_single_line (ast file)
                (newTransformer (getFullText file) (firstChildOf file)) Hnl eq_refl)
      as [Hsame _].
    rewrite Hsame. now destruct file.
Qed.

Lemma X11_single_line_witness :
  newlineCount (getFullText Examples.file7) <= 1 /\
  falsy (getFullText Examples.file7) = false /\
  @preserveBlankLinesTransformer Examples.scanner5 Examples.file7 = Examples.file7.
Proof.
  assert (Hnl : newlineCount (getFullText Examples.file7) <= 1) by (vm_compute; discriminate).
  split; [exact Hnl|]. split; [reflexivity|].
  exact (@X11_single_line_file_returned_unchanged Examples.scanner5 Examples.file7 Hnl).
Defined.

(** ** No more placeholders than blank lines *)










(** ** Nodes with nothing reported in front of them *)

(** X13. A node at whose full start the scanner reports no comment range,
    and whose trivia range holds at most one line feed, gets an empty
    sequence and comes out of the transform exactly as it went in: no
    synthetic comment, the trivia span as it was, over the same text. *)
Theorem X13_nothing_reported_untouched {ts : TypeScript}
    (file : SourceFile) (i : nat) (node : Node) :
  flatten (ast file) !! i = Some node ->
  existingCommentsOf (getFullText file) node = [] ->
  newlineCount (leadingTrivia (getFullText file) node) <= 1 ->
  newComments (scanTrivia (newTransformer (getFullText file) (firstChildOf file)) node) = [] /\
  flatten (ast (preserveBlankLinesTransformer file)) !! i = Some node /\
  getFullText (preserveBlankLinesTransformer file) = getFullText file.
Proof.
  intros Hi Hcs Hnl. split; [now apply scanTrivia_nothing|].
  unfold preserveBlankLinesTransformer.
  destruct (falsy (getFullText file)) eqn:Hf.
  - unfold transformFile. rewrite Hf. now split.
  - rewrite transformFile_walk by exact Hf. simpl. split; [|reflexivity].
    set (this := newTransformer _ _).
    destruct (visit_visitAll (ast file) this) as [Hflat _]. rewrite Hflat.
    destruct (visitAll_lookup this (flatten (ast file)) i node Hi) as [Hn _].
    rewrite Hn. f_equal.
    set (before := snd (visitAll this (take i (flatten (ast file))))).
    assert (Htxt : _sourceFileText before = getFullText file)
      by apply visitAll_sourceFileText.
    apply addComments_untouched; rewrite ?Htxt; try assumption.
    apply visitAll_deletedHaveComments. intros K HK. simpl in HK. set_solver.
Qed.

(** The statement [a;] of the first sample has an empty trivia region. *)
Lemma X13_untouched_witness :
  flatten (ast Examples.file1) !! 1%nat = Some Examples.stmtA /\
  @existingCommentsOf Examples.scanner1 Examples.text1 Examples.stmtA = [] /\
  newlineCount (leadingTrivia Examples.text1 Examples.stmtA) <= 1 /\
  flatten (ast (@preserveBlankLinesTransformer Examples.scanner1 Examples.file1)) !! 1%nat =
    Some Examples.stmtA.
Proof.
  assert (Hi : flatten (ast Examples.file1) !! 1%nat = Some Examples.stmtA) by reflexivity.
  assert (Hcs : @existingCommentsOf Examples.scanner1 (getFullText Examples.file1)
                  Examples.stmtA = []) by reflexivity.
  assert (Hnl : newlineCount (leadingTrivia (getFullText Examples.file1) Examples.stmtA) <= 1)
    by (vm_compute; discriminate).
  split; [exact Hi|]. split; [exact Hcs|]. split; [exact Hnl|].
  exact (proj1 (proj2 (@X13_nothing_reported_untouched Examples.scanner1
                         Examples.file1 1%nat Examples.stmtA Hi Hcs Hnl))).
Defined.
